(** * Copy-trading agent: configuration loading and process bootstrap

    A shallow embedding of the two TypeScript modules of the agent:

    - the configuration module ([normalizeEnvironment], [loadConfig]),
      which reads [process.env];
    - the entry point [index.ts] ([main], [pollLoop], [shutdown] and the
      override of [TradeExecutor.prototype.syncWithLeader] installed at the
      bottom of the module).

    JavaScript strings are modelled as [string]s whose characters are the
    code units U+0000..U+00FF; on this repertoire [toLowerCase], [trim] and
    [Number] below follow ECMAScript.  JavaScript numbers are binary64
    values ([spec_float] at precision 53, exponent bound 1024).  The
    asynchronous functions of [index.ts] are interaction trees over the
    calls they make to their collaborators. *)

From Stdlib Require Import ZArith NArith Bool List String Ascii Lia.
From Stdlib Require Import Floats.SpecFloat.
From ITree Require Import ITree.
Import ListNotations.
Import ITreeNotations.

Local Open Scope string_scope.
Local Open Scope Z_scope.

(* ===================================================================== *)
(** ** JavaScript values used by the configuration module *)
(* ===================================================================== *)

Module JS.

(** *** Strings *)

Definition code (c : ascii) : Z := Z.of_N (N_of_ascii c).

Definition ofCode (n : Z) : ascii := ascii_of_N (Z.to_N n).

(** WhiteSpace and LineTerminator code units below U+0100:
    TAB, LF, VT, FF, CR, SP and NBSP. *)
Definition isWhiteSpace (c : ascii) : bool :=
  let n := code c in
  (9 <=? n) && (n <=? 13) || (n =? 32) || (n =? 160).

(** Lower-case mapping of one code unit: A-Z, and the Latin-1 capitals
    U+00C0..U+00DE other than the multiplication sign U+00D7. *)
Definition lowerChar (c : ascii) : ascii :=
  let n := code c in
  if (65 <=? n) && (n <=? 90) then ofCode (n + 32)
  else if (192 <=? n) && (n <=? 222) && negb (n =? 215) then ofCode (n + 32)
  else c.

Fixpoint toLowerCase (s : string) : string :=
  match s with
  | EmptyString => EmptyString
  | String c r => String (lowerChar c) (toLowerCase r)
  end.

Fixpoint trimStart (s : string) : string :=
  match s with
  | EmptyString => EmptyString
  | String c r => if isWhiteSpace c then trimStart r else s
  end.

Fixpoint trimEnd (s : string) : string :=
  match s with
  | EmptyString => EmptyString
  | String c r =>
      match trimEnd r with
      | EmptyString => if isWhiteSpace c then EmptyString else String c EmptyString
      | r' => String c r'
      end
  end.

Definition trim (s : string) : string := trimEnd (trimStart s).

(** [a ?? b] on [string | undefined]. *)
Definition nullish (a : option string) (b : string) : string :=
  match a with
  | Some s => s
  | None => b
  end.

(** [a ?? b] when [b] may itself be [undefined]. *)
Definition nullishU (a b : option string) : option string :=
  match a with
  | Some s => Some s
  | None => b
  end.

(** *** Numbers *)

Definition number : Type := spec_float.

Definition prec : Z := 53.
Definition emax : Z := 1024.

Definition NaN : number := S754_nan.
Definition Infinity (neg : bool) : number := S754_infinity neg.
Definition zero (neg : bool) : number := S754_zero neg.

(** The Number value of an integer. *)
Definition ofZ (z : Z) : number := binary_normalize prec emax z 0 false.

(** [x >= y] and [x < y] on Numbers. *)
Definition ge (x y : number) : bool := SFleb y x.
Definition lt (x y : number) : bool := SFltb x y.

(** The Number value nearest to [m * 10^k] (ties to even), for [m > 0]. *)
Definition roundDecimal (neg : bool) (m : positive) (k : Z) : number :=
  match k with
  | Zneg p =>
      SFdiv prec emax (S754_finite neg m 0)
                      (S754_finite false (Pos.pow 10 p) 0)
  | _ =>
      binary_normalize prec emax
        (if neg then Z.neg (m * Z.to_pos (10 ^ k)) else Z.pos (m * Z.to_pos (10 ^ k)))
        0 neg
  end.

Definition ofDecimal (neg : bool) (m : Z) (k : Z) : number :=
  match m with
  | Zpos p => roundDecimal neg p k
  | _ => zero neg
  end.

(** Value of a digit in the given radix, if it is one. *)
Definition digitValue (radix : Z) (c : ascii) : option Z :=
  let n := code c in
  let v :=
    if (48 <=? n) && (n <=? 57) then n - 48
    else if (97 <=? n) && (n <=? 102) then n - 87
    else if (65 <=? n) && (n <=? 70) then n - 55
    else 99 in
  if v <? radix then Some v else None.

(** Longest prefix of digits: the digits read (most significant first)
    and the rest of the string. *)
Fixpoint readDigits (radix : Z) (s : string) : list Z * string :=
  match s with
  | EmptyString => ([], EmptyString)
  | String c r =>
      match digitValue radix c with
      | Some d => let '(ds, rest) := readDigits radix r in (d :: ds, rest)
      | None => ([], s)
      end
  end.

Definition digitsValue (radix : Z) (ds : list Z) : Z :=
  fold_left (fun acc d => acc * radix + d) ds 0.

Definition isEmpty (s : string) : bool :=
  match s with EmptyString => true | _ => false end.

(** ExponentPart_opt at the end of a decimal literal: the exponent, or
    [None] when what is left is not an exponent part. *)
Definition readExponent (s : string) : option Z :=
  match s with
  | EmptyString => Some 0
  | String c r =>
      if (code c =? 101) || (code c =? 69) then
        let '(neg, r1) :=
          match r with
          | String "+" r' => (false, r')
          | String "-" r' => (true, r')
          | _ => (false, r)
          end in
        let '(ds, rest) := readDigits 10 r1 in
        match ds with
        | [] => None
        | _ =>
            if isEmpty rest
            then Some (if neg then - digitsValue 10 ds else digitsValue 10 ds)
            else None
        end
      else None
  end.

(** StrUnsignedDecimalLiteral other than [Infinity]: mantissa digits and
    decimal exponent. *)
Definition readUnsignedDecimal (s : string) : option (Z * Z) :=
  let '(ip, r1) := readDigits 10 s in
  match r1 with
  | String "." r2 =>
      let '(fp, r3) := readDigits 10 r2 in
      match ip, fp with
      | [], [] => None
      | _, _ =>
          match readExponent r3 with
          | Some e => Some (digitsValue 10 (ip ++ fp)%list, e - Z.of_nat (List.length fp))
          | None => None
          end
      end
  | _ =>
      match ip with
      | [] => None
      | _ =>
          match readExponent r1 with
          | Some e => Some (digitsValue 10 ip, e)
          | None => None
          end
      end
  end.

Definition readSignedDecimal (neg : bool) (s : string) : number :=
  if String.eqb s "Infinity" then Infinity neg
  else match readUnsignedDecimal s with
       | Some (m, k) => ofDecimal neg m k
       | None => NaN
       end.

(** NonDecimalIntegerLiteral: [0b], [0o], [0x] prefixes, no sign. *)
Definition readNonDecimal (radix : Z) (s : string) : number :=
  let '(ds, rest) := readDigits radix s in
  match ds with
  | [] => NaN
  | _ => if isEmpty rest then ofZ (digitsValue radix ds) else NaN
  end.

(** The radix announced by a [0x], [0o] or [0b] prefix (either case) and
    what follows the prefix. *)
Definition radixPrefix (s : string) : option (Z * string) :=
  match s with
  | String "0" (String p r) =>
      let n := code p in
      if (n =? 120) || (n =? 88) then Some (16, r)
      else if (n =? 111) || (n =? 79) then Some (8, r)
      else if (n =? 98) || (n =? 66) then Some (2, r)
      else None
  | _ => None
  end.

(** [Number(s)] for a string argument (StringToNumber): white space is
    trimmed, the empty string is [+0], and what is not a numeric literal
    is [NaN]. *)
Definition Number (s : string) : number :=
  match trim s with
  | EmptyString => zero false
  | String c r as t =>
      if code c =? 43 then readSignedDecimal false r
      else if code c =? 45 then readSignedDecimal true r
      else match radixPrefix t with
           | Some (radix, digits) => readNonDecimal radix digits
           | None => readSignedDecimal false t
           end
  end.

(** [Number(String(x))]: Number::toString prints a decimal that reads
    back as [x], [NaN] and the infinities by name, and both zeros as
    ["0"]. *)
Definition NumberOfString (x : number) : number :=
  match x with
  | S754_zero _ => zero false
  | _ => x
  end.

(** A value passed as an argument of a call. *)
Inductive value : Type :=
| undefined
| ofString (s : string)
| ofNumber (n : number)
| ofBoolean (b : bool).

End JS.

(* ===================================================================== *)
(** ** The configuration module *)
(* ===================================================================== *)

(** A thrown JavaScript value. *)
Inductive exn : Type :=
| Error (message : string)
| TypeError (message : string).

(** How a synchronous call completes. *)
Inductive Completion (A : Type) : Type :=
| Normal (value : A)
| Throw (error : exn).
Arguments Normal {A} value.
Arguments Throw {A} error.

Module Config.

(** [type HyperliquidEnvironment = "main" | "testnet"] *)
Inductive HyperliquidEnvironment : Type :=
| env_main
| env_testnet.

Record RiskConfig : Type := {
  minPositionUsd : JS.number;
  copyRatio : JS.number;
  maxLeverage : JS.number;
  maxNotionalUsd : JS.number;
  inverse : bool;
  maxSlippageBps : JS.number
}.

Record CopyTradingConfig : Type := {
  environment : HyperliquidEnvironment;
  leaderAddress : string;
  followerPrivateKey : string;
  followerVaultAddress : option string;
  syncIntervalMs : JS.number;
  reconciliationIntervalMs : JS.number;
  refreshAccountIntervalMs : JS.number;
  websocketAggregateFills : bool;
  risk : RiskConfig
}.

(** [process.env]: a variable is a string or [undefined]. *)
Definition ProcessEnv : Type := string -> option string.

(** The empty environment, and an environment with one variable set or
    removed. *)
Definition emptyEnv : ProcessEnv := fun _ => None.

Definition setEnv (name value : string) (env : ProcessEnv) : ProcessEnv :=
  fun k => if String.eqb k name then Some value else env k.

Definition unsetEnv (name : string) (env : ProcessEnv) : ProcessEnv :=
  fun k => if String.eqb k name then None else env k.

(** Normalize any env string to "main" or "testnet"; [!raw] holds of
    [undefined] and of the empty string. *)
Definition normalizeEnvironment (raw : option string) : HyperliquidEnvironment :=
  match raw with
  | None | Some EmptyString => env_main
  | Some raw =>
      let v := JS.trim (JS.toLowerCase raw) in
      if String.eqb v "testnet" then env_testnet
      else (* Treat anything else as mainnet (production) *) env_main
  end.

(** What [console.log] is given after the label. *)
Inductive ConsoleValue : Type :=
| LogEnvironment (e : HyperliquidEnvironment)
| LogString (s : option string)
| LogRisk (r : RiskConfig).

(** A call of [loadConfig]: the lines it wrote with [console.log] and how
    it completed. *)
Record Run (A : Type) : Type := {
  console : list (string * ConsoleValue);
  completion : Completion A
}.
Arguments console {A} _.
Arguments completion {A} _.

Definition loadConfig (env : ProcessEnv) : Run CopyTradingConfig :=
  let environment := normalizeEnvironment (env "HYPERLIQUID_ENVIRONMENT") in
  let leaderAddress := env "LEADER_ADDRESS" in
  let followerPrivateKey := env "FOLLOWER_PRIVATE_KEY" in
  let followerVaultAddress := env "FOLLOWER_VAULT_ADDRESS" in
  match leaderAddress with
  | None | Some EmptyString =>
      {| console := []; completion := Throw (Error "LEADER_ADDRESS is required") |}
  | Some leaderAddress =>
  match followerPrivateKey with
  | None | Some EmptyString =>
      {| console := []; completion := Throw (Error "FOLLOWER_PRIVATE_KEY is required") |}
  | Some followerPrivateKey =>
      (* ==== Risk config ==== *)
      let minPositionUsd := JS.Number (JS.nullish (env "MIN_POSITION_USD") "40") in
      let copyRatio := JS.Number (JS.nullish (env "COPY_RATIO") "1") in
      let maxLeverage := JS.Number (JS.nullish (env "MAX_LEVERAGE") "25") in
      let maxNotionalUsd := JS.Number (JS.nullish (env "MAX_NOTIONAL_USD") "1000000") in
      let inverse := String.eqb (JS.nullish (env "INVERSE_COPY") "false") "true" in
      let maxSlippageBps :=
        JS.Number
          (JS.nullish
             (JS.nullishU (env "MAX_SLIPPAGE_BPS") (env "SLIPPAGE_BPS"))
             "50") in
      let risk := {|
        minPositionUsd := minPositionUsd;
        copyRatio := copyRatio;
        maxLeverage := maxLeverage;
        maxNotionalUsd := maxNotionalUsd;
        inverse := inverse;
        maxSlippageBps := maxSlippageBps
      |} in
      (* ==== Timings / misc ==== *)
      let syncIntervalMs := JS.Number (JS.nullish (env "SYNC_INTERVAL_MS") "60000") in
      let reconciliationIntervalMs :=
        match env "RECONCILIATION_INTERVAL_MS" with
        | Some s => JS.Number s
        | None => JS.NumberOfString syncIntervalMs
        end in
      let refreshAccountIntervalMs :=
        JS.Number (JS.nullish (env "REFRESH_ACCOUNT_INTERVAL_MS") "300000") in
      let websocketAggregateFills :=
        String.eqb (JS.nullish (env "WEBSOCKET_AGGREGATE_FILLS") "true") "true" in
      let config := {|
        environment := environment;
        leaderAddress := leaderAddress;
        followerPrivateKey := followerPrivateKey;
        followerVaultAddress := followerVaultAddress;
        syncIntervalMs := syncIntervalMs;
        reconciliationIntervalMs := reconciliationIntervalMs;
        refreshAccountIntervalMs := refreshAccountIntervalMs;
        websocketAggregateFills := websocketAggregateFills;
        risk := risk
      |} in
      {| console :=
           [ ("[CONFIG] Environment:", LogEnvironment environment);
             ("[CONFIG] Leader:", LogString (Some leaderAddress));
             ("[CONFIG] Vault:", LogString followerVaultAddress);
             ("[CONFIG] Risk:", LogRisk risk) ];
         completion := Normal config |}
  end
  end.

End Config.

(* ===================================================================== *)
(** ** The entry point [index.ts] *)
(* ===================================================================== *)

(** How an awaited promise settles.  Every promise awaited in [index.ts]
    is awaited for its settlement only; its value is never used. *)
Inductive Outcome : Type :=
| Resolved
| Rejected (error : exn).

(** The promise returned by a call of an async function, once settled. *)
Inductive Promise (A : Type) : Type :=
| Fulfilled (value : A)
| RejectedWith (error : exn).
Arguments Fulfilled {A} value.
Arguments RejectedWith {A} error.

Definition settled {A} (p : Promise A) : Outcome :=
  match p with
  | Fulfilled _ => Resolved
  | RejectedWith error => Rejected error
  end.

Module Agent.
Import Config.

(** *** The override of [TradeExecutor.prototype.syncWithLeader] *)

(** Modelled from the spec: Position, the entry of the state stores
    LeaderState and FollowerState ([./domain/leaderState.js] and
    [./domain/followerState.js]), a mapping from asset to position. *)
Record Position : Type := {
  asset : string;
  signedSize : JS.number;
  entryPrice : JS.number;
  leverage : JS.number
}.

(** Modelled from the spec: an order placed through the exchange client
    ([placeOrder(asset, signedSize, limitOrMarketPrice)]). *)
Record Order : Type := {
  orderAsset : string;
  orderSize : JS.number;
  orderPrice : JS.number
}.

(** A line given to a logger. *)
Record LogEntry : Type := {
  level : string;
  message : string;
  meta : option exn
}.

(** What an invocation of a method of the trade executor can touch. *)
Record Store : Type := {
  leaderState : list Position;
  followerState : list Position;
  orders : list Order;
  log : list LogEntry
}.

(** A function found at [this.logger.info]: it may write its line to the
    log, and it returns or throws. *)
Record LoggerFunction : Type := {
  writes : bool;
  completes : Completion unit
}.

(** Reading [.info] of a truthy [this.logger]: a value that is not a
    function, a function, or a getter that throws. *)
Inductive InfoProperty : Type :=
| info_not_function
| info_function (f : LoggerFunction)
| info_throws (error : exn).

(** Reading [this.logger]: a falsy value, a truthy one, or a getter that
    throws. *)
Inductive LoggerProperty : Type :=
| logger_falsy
| logger_truthy (info : InfoProperty)
| logger_throws (error : exn).

(** A trade executor, as far as the override reads it, with the risk
    section it was built from. *)
Record TradeExecutorObject : Type := {
  executorRisk : RiskConfig;
  logger : LoggerProperty
}.

(** The receiver [this] of a call. *)
Inductive Receiver : Type :=
| this_undefined
| this_object (o : TradeExecutorObject).

(** [new TradeExecutor({ ..., risk: config.risk, log: logger })]: the
    class is outside this module, so which value the instance holds at
    [logger] is left open. *)
Definition newTradeExecutor (config : CopyTradingConfig) (lg : LoggerProperty)
  : Receiver :=
  this_object {| executorRisk := risk config; logger := lg |}.

(** The call [this.logger.info(entry)]. *)
Definition callLogger (f : LoggerFunction) (entry : LogEntry) (s : Store)
  : Store * Completion unit :=
  (if writes f
   then {| leaderState := leaderState s;
           followerState := followerState s;
           orders := orders s;
           log := log s ++ [entry] |}
   else s,
   completes f).

Definition disabledMessage : string :=
  "syncWithLeader disabled (no-op, copy-only mode, no drift rebalancing)".

(** The [try] block of the override. *)
Definition syncWithLeader_try (this : Receiver) (s : Store)
  : Store * Completion unit :=
  match this with
  | this_undefined =>
      (s, Throw (TypeError "Cannot read properties of undefined (reading 'logger')"))
  | this_object o =>
      match logger o with
      | logger_throws error => (s, Throw error)
      | logger_falsy => (s, Normal tt)
      | logger_truthy (info_throws error) => (s, Throw error)
      | logger_truthy info_not_function => (s, Normal tt)
      | logger_truthy (info_function f) =>
          callLogger f {| level := "info"; message := disabledMessage; meta := None |} s
      end
  end.

(** [TradeExecutor.prototype.syncWithLeader = async function () { ... }]:
    the function declares no parameter, so the arguments of a call are
    dropped. *)
Definition syncWithLeader (this : Receiver) (args : list JS.value) (s : Store)
  : Store * Promise JS.value :=
  let '(s', c) := syncWithLeader_try this s in
  match c with
  | Normal _ => (s', Fulfilled JS.undefined)
  | Throw _ => (* ignore logging problems *) (s', Fulfilled JS.undefined)
  end.

(** *** Calls made by [main], [pollLoop], [shutdown] and the callback *)

(** Modelled from the spec: the leader fill event that SubscriptionService
    ([./services/subscriptions.js]) delivers. *)
Record FillEvent : Type := {
  fillAsset : string;
  signedDelta : JS.number;
  price : JS.number
}.

(** Operations of the collaborators.  The last two are named by the spec
    only: [index.ts] calls neither. *)
Inductive Operation : Type :=
| dotenv_config
| console_log (label : string) (value : ConsoleValue)
| createHyperliquidClients (config : CopyTradingConfig)
| new_LeaderState
| new_FollowerState
| new_MarketMetadataService
| new_TradeExecutor (risk : RiskConfig)
| new_Reconciler (config : CopyTradingConfig)
| new_SubscriptionService (config : CopyTradingConfig)
| subscriptions_start
| subscriptions_stop
| reconciler_reconcileOnce
| reconciler_start
| reconciler_stop
| tradeExecutor_syncWithLeader
| wsTransport_close
| logger_warn (message : string)
| logger_error (message : string) (error : exn)
| process_on (signal : string)
| void_pollLoop
| leaderState_applyFill (event : FillEvent)
| tradeExecutor_syncAsset (asset : string).

(** The calls of [index.ts] on its collaborators.  A synchronous call (a
    constructor, the logger, [process.on], [reconciler.start()]) is taken
    to return; an awaited promise resolves, rejects or stays pending;
    the promise of [delay] resolves, after a time that is not part of the
    model; [process.exit] does not return. *)
Variant agentE : Type -> Type :=
| Invoke (op : Operation) : agentE unit       (* synchronous call *)
| Await (op : Operation) : agentE Outcome     (* await of the returned promise *)
| Delay (ms : JS.number) : agentE unit        (* await delay(ms) *)
| Exit (code : Z) : agentE void.              (* process.exit(code) *)

Local Open Scope itree_scope.

Definition invoke (op : Operation) : itree agentE (Completion unit) :=
  ITree.trigger (Invoke op) ;; Ret (Normal tt).

(** [await op()] inside a [try] block: a rejection is thrown. *)
Definition await (op : Operation) : itree agentE (Completion unit) :=
  r <- ITree.trigger (Await op) ;;
  match r with
  | Resolved => Ret (Normal tt)
  | Rejected error => Ret (Throw error)
  end.

(** [await op().catch(handler)]. *)
Definition awaitCatch (op : Operation) (handler : exn -> itree agentE unit)
  : itree agentE unit :=
  r <- ITree.trigger (Await op) ;;
  match r with
  | Resolved => Ret tt
  | Rejected error => handler error
  end.

(** Sequencing inside a [try] block: a throw skips what follows. *)
Definition andThen {A B} (t : itree agentE (Completion A))
           (k : A -> itree agentE (Completion B)) : itree agentE (Completion B) :=
  c <- t ;;
  match c with
  | Normal a => k a
  | Throw error => Ret (Throw error)
  end.

Fixpoint consoleLines (ls : list (string * ConsoleValue)) : itree agentE unit :=
  match ls with
  | [] => Ret tt
  | (label, v) :: rest =>
      ITree.trigger (Invoke (console_log label v)) ;; consoleLines rest
  end.

(** The call [loadConfig()] in [main]. *)
Definition call_loadConfig (env : ProcessEnv)
  : itree agentE (Completion CopyTradingConfig) :=
  let run := loadConfig env in
  consoleLines (console run) ;; Ret (completion run).

(** The body of the loop:
    [await tradeExecutor.syncWithLeader().catch((error) => { logger.error("Periodic sync failed", { error }) })]
    and then [await delay(config.refreshAccountIntervalMs)]. *)
Definition pollLoop_body (config : CopyTradingConfig) : itree agentE unit :=
  awaitCatch tradeExecutor_syncWithLeader
    (fun error => ITree.trigger (Invoke (logger_error "Periodic sync failed" error))) ;;
  ITree.trigger (Delay (refreshAccountIntervalMs config)).

(** [while (true) { ... }] *)
Definition pollLoop (config : CopyTradingConfig) : itree agentE void :=
  ITree.forever (pollLoop_body config).

Definition shutdown (signal : string) : itree agentE void :=
  ITree.trigger (Invoke (logger_warn ("Received " ++ signal ++ ", shutting down")%string)) ;;
  awaitCatch subscriptions_stop
    (fun error =>
       ITree.trigger (Invoke (logger_error "Failed to stop subscriptions cleanly" error))) ;;
  ITree.trigger (Invoke reconciler_stop) ;;
  awaitCatch wsTransport_close (fun _ => Ret tt) ;;
  ITree.trigger (Exit 0).

(** The callback given to [new SubscriptionService]:
    [() => tradeExecutor.syncWithLeader()].  It declares no parameter, so
    the event it is called with is dropped. *)
Definition onLeaderFill (event : FillEvent) : itree agentE Outcome :=
  ITree.trigger (Await tradeExecutor_syncWithLeader).

(** Modelled from the spec: the hook [onLeaderFill(event)] of section 4.3,
    which applies the fill to LeaderState and then calls [syncAsset] for
    the asset of the event. *)
Definition onLeaderFill_spec (event : FillEvent) : itree agentE Outcome :=
  ITree.trigger (Invoke (leaderState_applyFill event)) ;;
  ITree.trigger (Await (tradeExecutor_syncAsset (fillAsset event))).

(** The [try] block of [main]. *)
Definition main_try (env : ProcessEnv) : itree agentE (Completion unit) :=
  andThen (invoke dotenv_config) (fun _ =>
  andThen (call_loadConfig env) (fun config =>
  andThen (invoke (createHyperliquidClients config)) (fun _ =>
  andThen (invoke new_LeaderState) (fun _ =>
  andThen (invoke new_FollowerState) (fun _ =>
  andThen (invoke new_MarketMetadataService) (fun _ =>
  andThen (invoke (new_TradeExecutor (risk config))) (fun _ =>
  andThen (invoke (new_Reconciler config)) (fun _ =>
  andThen (invoke (new_SubscriptionService config)) (fun _ =>
  andThen (await subscriptions_start) (fun _ =>
  andThen (await reconciler_reconcileOnce) (fun _ =>
  andThen (invoke reconciler_start) (fun _ =>
  andThen (invoke void_pollLoop) (fun _ =>
  andThen (invoke (process_on "SIGINT")) (fun _ =>
  invoke (process_on "SIGTERM"))))))))))))))).

(** [main]: the [try] block and, on a throw, the [catch] block. *)
Definition main (env : ProcessEnv) : itree agentE unit :=
  c <- main_try env ;;
  match c with
  | Normal _ => Ret tt
  | Throw error =>
      ITree.trigger (Invoke (logger_error "Fatal error in copy trading agent" error)) ;;
      v <- ITree.trigger (Exit 1) ;;
      match v : void with end
  end.

(** *** Running a tree against its collaborators *)

(** What was observed of a run, oldest first. *)
Inductive Observation : Type :=
| Called (op : Operation)                 (* a synchronous call returned *)
| Settled (op : Operation) (r : Outcome)  (* the awaited promise settled *)
| Waiting (op : Operation)                (* awaiting, not settled so far *)
| Slept (ms : JS.number)                   (* [await delay(ms)] returned; [ms] is
                                             the argument, not a duration *)
| Exiting (code : Z).

(** [pending]: how the promises awaited next settle, in order.  When it
    is exhausted the next promise has not settled. *)
Record World : Type := {
  pending : list Outcome;
  trace : list Observation
}.

(** Appends an observation to the trace. *)
Definition observe_ (o : Observation) (w : World) : World :=
  {| pending := pending w; trace := trace w ++ [o] |}.

(** Where a run stands: the function returned, the process exited, the
    function awaits a promise that has not settled, or the run was cut
    short. *)
Inductive Status (R : Type) : Type :=
| Returned (r : R)
| Exited (code : Z)
| Blocked
| Running.
Arguments Returned {R} r.
Arguments Exited {R} code.
Arguments Blocked {R}.
Arguments Running {R}.

(** One call: the world after it and, when the call returns, its answer. *)
Definition handle {X} (e : agentE X) (w : World) : World * (X + Status void) :=
  match e in agentE X return World * (X + Status void) with
  | Invoke op => (observe_ (Called op) w, inl tt)
  | Await op =>
      match pending w with
      | r :: rest =>
          ({| pending := rest; trace := trace w ++ [Settled op r] |}, inl r)
      | [] => (observe_ (Waiting op) w, inr Blocked)
      end
  | Delay ms => (observe_ (Slept ms) w, inl tt)
  | Exit code => (observe_ (Exiting code) w, inr (Exited code))
  end.

(** The status of a run that stops at a call. *)
Definition halted {R} (st : Status void) : Status R :=
  match st with
  | Returned v => match v with end
  | Exited code => Exited code
  | Blocked => Blocked
  | Running => Running
  end.

(** [fuel] bounds the number of steps; [Running] is a run cut short. *)
Fixpoint exec {R} (fuel : nat) (t : itree agentE R) (w : World) : World * Status R :=
  match fuel with
  | O => (w, Running)
  | S fuel =>
      match observe t with
      | RetF r => (w, Returned r)
      | TauF t' => exec fuel t' w
      | VisF e k =>
          match handle e w with
          | (w', inl x) => exec fuel (k x) w'
          | (w', inr st) => (w', halted st)
          end
      end
  end.

(** The world at the start of a run whose awaited promises settle as [rs]. *)
Definition start (rs : list Outcome) : World := {| pending := rs; trace := [] |}.

End Agent.

(* ===================================================================== *)
(** ** Vocabulary of the statements *)
(* ===================================================================== *)

Import Config.

Import Agent.
Local Open Scope list_scope.

(** A minimal environment with which [loadConfig] succeeds. *)
Definition baseEnv : ProcessEnv :=
  setEnv "LEADER_ADDRESS" "0xabc" (setEnv "FOLLOWER_PRIVATE_KEY" "0xdef" emptyEnv).

(** A variable is missing when it is absent or the empty string. *)
Definition missing (env : ProcessEnv) (name : string) : Prop :=
  env name = None \/ env name = Some "".

(** Both variables set: MAX_SLIPPAGE_BPS=25 wins over SLIPPAGE_BPS=75. *)
Definition slippageEnv : ProcessEnv :=
  setEnv "MAX_SLIPPAGE_BPS" "25" (setEnv "SLIPPAGE_BPS" "75" baseEnv).

(** The configuration [loadConfig] returns, if it returns one. *)
Definition loaded (env : ProcessEnv) : option CopyTradingConfig :=
  match completion (loadConfig env) with
  | Normal config => Some config
  | Throw _ => None
  end.

(** Every character of [s] is a decimal digit. *)
Fixpoint allDigits (s : string) : bool :=
  match s with
  | EmptyString => true
  | String c r =>
      match JS.digitValue 10 c with
      | Some _ => allDigits r
      | None => false
      end
  end.

(** What one iteration of the loop adds to the trace, given how
    [syncWithLeader] settled. *)
Definition iteration (config : CopyTradingConfig) (r : Outcome) : list Observation :=
  match r with
  | Resolved =>
      [ Settled tradeExecutor_syncWithLeader Resolved;
        Slept (refreshAccountIntervalMs config) ]
  | Rejected error =>
      [ Settled tradeExecutor_syncWithLeader (Rejected error);
        Called (logger_error "Periodic sync failed" error);
        Slept (refreshAccountIntervalMs config) ]
  end.

(** Everything [main] does before its first [await]. *)
Definition boot (config : CopyTradingConfig) : list Observation :=
  [ Called dotenv_config;
    Called (console_log "[CONFIG] Environment:" (LogEnvironment (environment config)));
    Called (console_log "[CONFIG] Leader:" (LogString (Some (leaderAddress config))));
    Called (console_log "[CONFIG] Vault:" (LogString (followerVaultAddress config)));
    Called (console_log "[CONFIG] Risk:" (LogRisk (risk config)));
    Called (createHyperliquidClients config);
    Called new_LeaderState;
    Called new_FollowerState;
    Called new_MarketMetadataService;
    Called (new_TradeExecutor (risk config));
    Called (new_Reconciler config);
    Called (new_SubscriptionService config) ].

(** The [catch] block of [main]. *)
Definition fatal (error : exn) : list Observation :=
  [ Called (logger_error "Fatal error in copy trading agent" error);
    Exiting 1 ].

(** After the last [await] of [main]. *)
Definition started : list Observation :=
  [ Called reconciler_start;
    Called void_pollLoop;
    Called (process_on "SIGINT");
    Called (process_on "SIGTERM") ].

(** The complete run of [main], by what [loadConfig] returns and how
    [subscriptions.start()] and [reconciler.reconcileOnce()] settle. *)
Definition main_run (env : ProcessEnv) (rs : list Outcome) : World * Status unit :=
  match completion (loadConfig env) with
  | Throw error =>
      ({| pending := rs; trace := Called dotenv_config :: fatal error |}, Exited 1)
  | Normal config =>
      match rs with
      | [] =>
          ({| pending := [];
              trace := boot config ++ [Waiting subscriptions_start] |}, Blocked)
      | Rejected error :: rest =>
          ({| pending := rest;
              trace := boot config
                         ++ Settled subscriptions_start (Rejected error) :: fatal error |},
           Exited 1)
      | [Resolved] =>
          ({| pending := [];
              trace := boot config
                         ++ [Settled subscriptions_start Resolved;
                             Waiting reconciler_reconcileOnce] |}, Blocked)
      | Resolved :: Rejected error :: rest =>
          ({| pending := rest;
              trace := boot config
                         ++ Settled subscriptions_start Resolved
                         :: Settled reconciler_reconcileOnce (Rejected error)
                         :: fatal error |},
           Exited 1)
      | Resolved :: Resolved :: rest =>
          ({| pending := rest;
              trace := boot config
                         ++ Settled subscriptions_start Resolved
                         :: Settled reconciler_reconcileOnce Resolved
                         :: started |},
           Returned tt)
      end
  end.

(** Observations of a call of [reconciler.reconcileOnce()]. *)
Definition isReconcileOnce (o : Observation) : bool :=
  match o with
  | Settled reconciler_reconcileOnce _ => true
  | Waiting reconciler_reconcileOnce => true
  | _ => false
  end.

(** Closes a goal from [H : In o l] when [o] is none of the entries of the
    explicit list [l]. *)
Ltac not_in_trace H :=
  simpl in H; repeat (destruct H as [H|H]; [discriminate|]); contradiction.

(** The [catch] handler of [subscriptions.stop()]. *)
Definition stopLog (r : Outcome) : list Observation :=
  match r with
  | Resolved => []
  | Rejected error =>
      [Called (logger_error "Failed to stop subscriptions cleanly" error)]
  end.

(** The complete run of [shutdown], by how [subscriptions.stop()] and
    [wsTransport.close()] settle. *)
Definition shutdown_run (signal : string) (rs : list Outcome) : World * Status void :=
  let warned := Called (logger_warn ("Received " ++ signal ++ ", shutting down")%string) in
  match rs with
  | [] =>
      ({| pending := []; trace := [warned; Waiting subscriptions_stop] |}, Blocked)
  | [r1] =>
      ({| pending := [];
          trace := [warned; Settled subscriptions_stop r1] ++ stopLog r1
                     ++ [Called reconciler_stop; Waiting wsTransport_close] |},
       Blocked)
  | r1 :: r2 :: rest =>
      ({| pending := rest;
          trace := [warned; Settled subscriptions_stop r1] ++ stopLog r1
                     ++ [Called reconciler_stop; Settled wsTransport_close r2;
                         Exiting 0] |},
       Exited 0)
  end.

(** The one line the override may log. *)
Definition disabledEntry : LogEntry :=
  {| level := "info"; message := disabledMessage; meta := None |}.

(** A store in which the follower has drifted from the leader. *)
Definition driftedStore : Store :=
  {| leaderState :=
       [ {| asset := "BTC"; signedSize := JS.ofZ 10;
            entryPrice := JS.ofZ 50000; leverage := JS.ofZ 1 |} ];
     followerState := [];
     orders := [];
     log := [] |}.

(** A logger whose [info] throws, and one whose [info] writes its line. *)
Definition throwingLogger : LoggerProperty :=
  logger_truthy
    (info_function {| writes := false; completes := Throw (Error "EPIPE") |}).

Definition writingLogger : LoggerProperty :=
  logger_truthy (info_function {| writes := true; completes := Normal tt |}).

(** The periodic sync path performs corrective trading under [config]
    when some call of it, on an executor built from [config], places an
    order. *)
Definition performsCorrectiveTrading (config : CopyTradingConfig) : Prop :=
  exists lg args s,
    orders (fst (syncWithLeader (newTradeExecutor config lg) args s)) <> orders s.

(** Observations of [LeaderState.applyFill], of [TradeExecutor.syncAsset]
    and of [TradeExecutor.syncWithLeader]. *)
Definition isApplyFill (o : Observation) : bool :=
  match o with
  | Called (leaderState_applyFill _) => true
  | _ => false
  end.

Definition isSyncAsset (o : Observation) : bool :=
  match o with
  | Settled (tradeExecutor_syncAsset _) _ => true
  | Waiting (tradeExecutor_syncAsset _) => true
  | _ => false
  end.

Definition isSyncWithLeader (o : Observation) : bool :=
  match o with
  | Settled tradeExecutor_syncWithLeader _ => true
  | Waiting tradeExecutor_syncWithLeader => true
  | _ => false
  end.

(** Observations of a call of [logger.error]. *)
Definition isErrorLog (o : Observation) : bool :=
  match o with
  | Called (logger_error _ _) => true
  | _ => false
  end.

(** The leader buys 10 BTC at 50000. *)
Definition btcFill : FillEvent :=
  {| fillAsset := "BTC"; signedDelta := JS.ofZ 10; price := JS.ofZ 50000 |}.

(** An environment with a negative copy ratio. *)
Definition negativeRatioEnv : ProcessEnv := setEnv "COPY_RATIO" "-1" baseEnv.

(** The variables [loadConfig] reads from [process.env]. *)
Definition readVariables : list string :=
  [ "HYPERLIQUID_ENVIRONMENT"; "LEADER_ADDRESS"; "FOLLOWER_PRIVATE_KEY";
    "FOLLOWER_VAULT_ADDRESS"; "MIN_POSITION_USD"; "COPY_RATIO"; "MAX_LEVERAGE";
    "MAX_NOTIONAL_USD"; "INVERSE_COPY"; "MAX_SLIPPAGE_BPS"; "SLIPPAGE_BPS";
    "SYNC_INTERVAL_MS"; "RECONCILIATION_INTERVAL_MS";
    "REFRESH_ACCOUNT_INTERVAL_MS"; "WEBSOCKET_AGGREGATE_FILLS" ].

(** The variables [loadConfig] has a default for. *)
Definition optionalVariables : list string :=
  [ "HYPERLIQUID_ENVIRONMENT"; "FOLLOWER_VAULT_ADDRESS"; "MIN_POSITION_USD";
    "COPY_RATIO"; "MAX_LEVERAGE"; "MAX_NOTIONAL_USD"; "INVERSE_COPY";
    "MAX_SLIPPAGE_BPS"; "SLIPPAGE_BPS"; "SYNC_INTERVAL_MS";
    "RECONCILIATION_INTERVAL_MS"; "REFRESH_ACCOUNT_INTERVAL_MS";
    "WEBSOCKET_AGGREGATE_FILLS" ].

(** The numeric fields of a configuration, each with the variable it is
    read from when that variable is set. *)
Definition numericFields : list (string * (CopyTradingConfig -> JS.number)) :=
  [ ("MIN_POSITION_USD", fun c => minPositionUsd (risk c));
    ("COPY_RATIO", fun c => copyRatio (risk c));
    ("MAX_LEVERAGE", fun c => maxLeverage (risk c));
    ("MAX_NOTIONAL_USD", fun c => maxNotionalUsd (risk c));
    ("MAX_SLIPPAGE_BPS", fun c => maxSlippageBps (risk c));
    ("SYNC_INTERVAL_MS", syncIntervalMs);
    ("RECONCILIATION_INTERVAL_MS", reconciliationIntervalMs);
    ("REFRESH_ACCOUNT_INTERVAL_MS", refreshAccountIntervalMs) ].

(** Rewrites the look-ups of the variables that [U] says are unset. *)
Ltac unset_variables U :=
  repeat match goal with
         | |- context [?env ?k] => rewrite (U k) by (simpl; tauto)
         end.

(** The variable whose text a numeric field converts: MAX_SLIPPAGE_BPS
    falls back on SLIPPAGE_BPS and RECONCILIATION_INTERVAL_MS on
    SYNC_INTERVAL_MS. *)
Definition readFrom (env : ProcessEnv) (name : string) : option string :=
  if String.eqb name "MAX_SLIPPAGE_BPS"
  then JS.nullishU (env name) (env "SLIPPAGE_BPS")
  else if String.eqb name "RECONCILIATION_INTERVAL_MS"
  then JS.nullishU (env name) (env "SYNC_INTERVAL_MS")
  else env name.

(** The integer a string of decimal digits spells. *)
Definition decimalValue (s : string) : Z :=
  JS.digitsValue 10 (fst (JS.readDigits 10 s)).

(** The white space characters below U+0100, by their codes: TAB, LF, VT,
    FF, CR, SP and NBSP. *)
Definition isBlank (s : string) : bool :=
  forallb (fun c => existsb (Nat.eqb (nat_of_ascii c)) [9; 10; 11; 12; 13; 32; 160]%nat)
          (list_ascii_of_string s).

(** [s] spells [lower] up to the case of each letter, [upper] being
    [lower] in capitals. *)
Fixpoint spelledAs (lower upper s : string) : bool :=
  match lower, upper, s with
  | EmptyString, EmptyString, EmptyString => true
  | String l lower', String u upper', String c s' =>
      (Ascii.eqb c l || Ascii.eqb c u) && spelledAs lower' upper' s'
  | _, _, _ => false
  end.

(** Every character of [s] is white space. *)
Fixpoint allWhiteSpace (s : string) : bool :=
  match s with
  | EmptyString => true
  | String c r => JS.isWhiteSpace c && allWhiteSpace r
  end.

(** Every element of [l] that satisfies [p] comes after one that satisfies
    [q]; [seen] tells whether one came before [l]. *)
Fixpoint precededBy {A} (p q : A -> bool) (seen : bool) (l : list A) : bool :=
  match l with
  | [] => true
  | o :: l' => (negb (p o) || seen) && precededBy p q (seen || q o) l'
  end.

(** [subscriptions.start()] has resolved. *)
Definition isSubscribed (o : Observation) : bool :=
  match o with
  | Settled subscriptions_start Resolved => true
  | _ => false
  end.

(** What [main] does once its start-up has succeeded: the timer of the
    reconciler, the poll loop, the signal handlers. *)
Definition isStarted (o : Observation) : bool :=
  match o with
  | Called reconciler_start => true
  | Called void_pollLoop => true
  | Called (process_on _) => true
  | _ => false
  end.

(** Observations of [await delay(ms)], and rejected settlements. *)
Definition isSlept (o : Observation) : bool :=
  match o with
  | Slept _ => true
  | _ => false
  end.

Definition isRejected (r : Outcome) : bool :=
  match r with
  | Rejected _ => true
  | Resolved => false
  end.

(** The observations a run of [pollLoop] can add. *)
Definition isLoopCall (o : Observation) : bool :=
  match o with
  | Settled tradeExecutor_syncWithLeader _ => true
  | Waiting tradeExecutor_syncWithLeader => true
  | Called (logger_error m _) => String.eqb m "Periodic sync failed"
  | Slept _ => true
  | _ => false
  end.

(** Observations of what [shutdown] does after [subscriptions.stop()] has
    settled. *)
Definition isAfterStop (o : Observation) : bool :=
  match o with
  | Called reconciler_stop => true
  | Settled wsTransport_close _ => true
  | Waiting wsTransport_close => true
  | Exiting _ => true
  | _ => false
  end.

(** A sequence of calls of the override, each with its receiver and its
    arguments. *)
Definition syncCalls (calls : list (Receiver * list JS.value)) (s : Store) : Store :=
  fold_left (fun s c => fst (syncWithLeader (fst c) (snd c) s)) calls s.

(* ===================================================================== *)
(** ** Properties of the configuration module *)
(* ===================================================================== *)

Example normalizeEnvironment_padded :
  normalizeEnvironment (Some "  TestNet ") = env_testnet.
Proof. reflexivity. Qed.

(** A tab before, a no-break space and a line feed after. *)
Example normalizeEnvironment_white_space :
  normalizeEnvironment
    (Some (String (ascii_of_nat 9)
             ("TESTNET" ++ String (ascii_of_nat 160) (String (ascii_of_nat 10) ""))%string))
  = env_testnet.
Proof. reflexivity. Qed.

Example normalizeEnvironment_unknown :
  normalizeEnvironment (Some "mainnet") = env_main
  /\ normalizeEnvironment (Some "test net") = env_main
  /\ normalizeEnvironment (Some "") = env_main
  /\ normalizeEnvironment None = env_main.
Proof. repeat split. Qed.

(** What [loadConfig] returns: nothing is logged before a throw, and the
    four lines after the configuration is built. *)
Lemma loadConfig_cases (env : ProcessEnv) :
  (exists message,
      loadConfig env = {| console := []; completion := Throw (Error message) |}
      /\ (missing env "LEADER_ADDRESS" \/ missing env "FOLLOWER_PRIVATE_KEY"))
  \/ (exists config,
         loadConfig env =
           {| console :=
                [ ("[CONFIG] Environment:", LogEnvironment (environment config));
                  ("[CONFIG] Leader:", LogString (Some (leaderAddress config)));
                  ("[CONFIG] Vault:", LogString (followerVaultAddress config));
                  ("[CONFIG] Risk:", LogRisk (risk config)) ];
              completion := Normal config |}
         /\ ~ missing env "LEADER_ADDRESS" /\ ~ missing env "FOLLOWER_PRIVATE_KEY").
Proof.
  unfold loadConfig, missing.
  destruct (env "LEADER_ADDRESS") as [[|c s]|] eqn:L.
  - left. eexists. split; [reflexivity|]. auto.
  - destruct (env "FOLLOWER_PRIVATE_KEY") as [[|c' s']|] eqn:F.
    + left. eexists. split; [reflexivity|]. auto.
    + right.
      lazymatch goal with
      | |- exists config, {| console := _; completion := Normal ?c |} = _ /\ _ =>
          exists c
      end.
      split; [reflexivity|].
      split; intros [H|H]; discriminate.
    + left. eexists. split; [reflexivity|]. auto.
  - left. eexists. split; [reflexivity|]. auto.
Qed.

(** The risk section of a loaded configuration, field by field. *)
Lemma loadConfig_risk (env : ProcessEnv) (config : CopyTradingConfig) :
  completion (loadConfig env) = Normal config ->
  risk config =
    {| minPositionUsd := JS.Number (JS.nullish (env "MIN_POSITION_USD") "40");
       copyRatio := JS.Number (JS.nullish (env "COPY_RATIO") "1");
       maxLeverage := JS.Number (JS.nullish (env "MAX_LEVERAGE") "25");
       maxNotionalUsd := JS.Number (JS.nullish (env "MAX_NOTIONAL_USD") "1000000");
       inverse := String.eqb (JS.nullish (env "INVERSE_COPY") "false") "true";
       maxSlippageBps :=
         JS.Number (JS.nullish (JS.nullishU (env "MAX_SLIPPAGE_BPS") (env "SLIPPAGE_BPS")) "50") |}.
Proof.
  unfold loadConfig.
  destruct (env "LEADER_ADDRESS") as [[|c s]|]; try discriminate.
  destruct (env "FOLLOWER_PRIVATE_KEY") as [[|c' s']|]; try discriminate.
  cbn [completion]. intros H. injection H as <-. reflexivity.
Qed.

Lemma Number_50 : JS.Number "50" = JS.ofZ 50.
Proof. vm_compute. reflexivity. Qed.

Lemma Number_1 : JS.Number "1" = JS.ofZ 1.
Proof. vm_compute. reflexivity. Qed.

(** C10. In a loaded configuration [maxSlippageBps] is the numeric value
    of MAX_SLIPPAGE_BPS when that variable is set, otherwise the numeric
    value of SLIPPAGE_BPS when that one is set, otherwise 50; when both
    are set MAX_SLIPPAGE_BPS wins. *)
Theorem maxSlippageBps_precedence (env : ProcessEnv) (config : CopyTradingConfig) :
  completion (loadConfig env) = Normal config ->
  maxSlippageBps (risk config) =
    match env "MAX_SLIPPAGE_BPS" with
    | Some v => JS.Number v
    | None =>
        match env "SLIPPAGE_BPS" with
        | Some v => JS.Number v
        | None => JS.ofZ 50
        end
    end.
Proof.
  intros H. rewrite (loadConfig_risk env config H). cbn [maxSlippageBps].
  destruct (env "MAX_SLIPPAGE_BPS") as [m|]; [reflexivity|].
  destruct (env "SLIPPAGE_BPS") as [v|]; [reflexivity|].
  exact Number_50.
Qed.

Lemma maxSlippageBps_precedence_witness :
  exists config,
    loaded slippageEnv = Some config
    /\ maxSlippageBps (risk config) = JS.ofZ 25.
Proof.
  destruct (completion (loadConfig slippageEnv)) as [config|e] eqn:E.
  - exists config. split.
    + unfold loaded. rewrite E. reflexivity.
    + rewrite (maxSlippageBps_precedence slippageEnv config E).
      vm_compute. reflexivity.
  - vm_compute in E. discriminate.
Defined.

Example Number_examples :
  JS.Number " 0.1 " = S754_finite false 7205759403792794 (-56)
  /\ JS.Number "-1" = SFopp (JS.ofZ 1)
  /\ JS.Number "" = JS.zero false
  /\ JS.Number "-0" = JS.zero true
  /\ JS.Number "0x1F" = JS.ofZ 31
  /\ JS.Number "0b101" = JS.ofZ 5
  /\ JS.Number "5." = JS.ofZ 5
  /\ JS.Number ".5e1" = JS.ofZ 5
  /\ JS.Number "1e3" = JS.ofZ 1000
  /\ JS.Number "1e400" = JS.Infinity false
  /\ JS.Number "-Infinity" = JS.Infinity true
  /\ JS.Number "9007199254740993" = JS.ofZ 9007199254740992
  /\ JS.Number "4.9e-324" = S754_finite false 1 (-1074)
  /\ JS.Number "abc" = JS.NaN
  /\ JS.Number "1e" = JS.NaN
  /\ JS.Number "." = JS.NaN
  /\ JS.Number "-0x10" = JS.NaN
  /\ JS.Number "1 2" = JS.NaN
  /\ JS.Number "1_000" = JS.NaN.
Proof. vm_compute. repeat split. Qed.

(** *** Rounding never turns a non-negative literal negative *)

Section RoundingSign.

Lemma shr_1_nonneg (mrs : shr_record) :
  0 <= shr_m mrs -> 0 <= shr_m (shr_1 mrs).
Proof.
  destruct mrs as [m r s]. simpl.
  destruct m as [|[p|p|]|[p|p|]]; simpl; lia.
Qed.

Lemma iter_shr_1_nonneg (p : positive) :
  forall mrs, 0 <= shr_m mrs -> 0 <= shr_m (iter_pos shr_1 p mrs).
Proof.
  induction p as [p IH|p IH|]; intros mrs H; simpl.
  - apply IH, IH, shr_1_nonneg, H.
  - apply IH, IH, H.
  - apply shr_1_nonneg, H.
Qed.

Lemma shr_fexp_nonneg (m e : Z) (l : location) :
  0 <= m -> 0 <= shr_m (fst (shr_fexp JS.prec JS.emax m e l)).
Proof.
  intros H. unfold shr_fexp, shr.
  assert (H0 : 0 <= shr_m (shr_record_of_loc m l)).
  { destruct l as [|[]]; exact H. }
  destruct (fexp JS.prec JS.emax (Zdigits2 m + e) - e) as [|p|p]; simpl; auto.
  apply iter_shr_1_nonneg, H0.
Qed.

Lemma round_nearest_even_nonneg (m : Z) (l : location) :
  0 <= m -> 0 <= round_nearest_even m l.
Proof.
  intros H. destruct l as [|[]]; simpl; try lia.
  destruct (Z.even m); lia.
Qed.

Lemma binary_round_aux_nonneg (mx ex : Z) (lx : location) :
  0 <= mx ->
  JS.ge (binary_round_aux JS.prec JS.emax false mx ex lx) (JS.zero false) = true.
Proof.
  intros H. unfold binary_round_aux.
  pose proof (shr_fexp_nonneg mx ex lx H) as H1.
  destruct (shr_fexp JS.prec JS.emax mx ex lx) as [mrs' e'].
  simpl fst in H1.
  pose proof (shr_fexp_nonneg _ e' loc_Exact
                (round_nearest_even_nonneg _ (loc_of_shr_record mrs') H1)) as H2.
  destruct (shr_fexp JS.prec JS.emax
              (round_nearest_even (shr_m mrs') (loc_of_shr_record mrs')) e' loc_Exact)
    as [mrs'' e''].
  simpl fst in H2.
  destruct (shr_m mrs'') as [|m|m]; [reflexivity| |lia].
  destruct (e'' <=? JS.emax - JS.prec); reflexivity.
Qed.

Lemma binary_round_nonneg (m : positive) (e : Z) :
  JS.ge (binary_round JS.prec JS.emax false m e) (JS.zero false) = true.
Proof.
  unfold binary_round.
  destruct (shl_align m e _) as [mz ez].
  apply binary_round_aux_nonneg. lia.
Qed.

Lemma ofDecimal_integer_nonneg (m : Z) :
  JS.ge (JS.ofDecimal false m 0) (JS.zero false) = true.
Proof.
  destruct m as [|p|p]; try reflexivity.
  unfold JS.ofDecimal, JS.roundDecimal, binary_normalize.
  apply binary_round_nonneg.
Qed.

End RoundingSign.

(** *** Strings of decimal digits *)

Lemma digit_code (c : ascii) (d : Z) :
  JS.digitValue 10 c = Some d -> 48 <= JS.code c <= 57.
Proof.
  unfold JS.digitValue. set (n := JS.code c).
  destruct (Z.leb_spec 48 n), (Z.leb_spec n 57); simpl andb; cbv iota;
    try lia;
    destruct (Z.leb_spec 97 n), (Z.leb_spec n 102); simpl andb; cbv iota;
    try (destruct (Z.ltb_spec (n - 87) 10); [lia|discriminate]);
    destruct (Z.leb_spec 65 n), (Z.leb_spec n 70); simpl andb; cbv iota;
    try (destruct (Z.ltb_spec (n - 55) 10); [lia|discriminate]);
    discriminate.
Qed.

Lemma digit_not_whiteSpace (c : ascii) (d : Z) :
  JS.digitValue 10 c = Some d -> JS.isWhiteSpace c = false.
Proof.
  intros H. apply digit_code in H. unfold JS.isWhiteSpace.
  destruct (Z.leb_spec 9 (JS.code c)), (Z.leb_spec (JS.code c) 13),
    (Z.eqb_spec (JS.code c) 32), (Z.eqb_spec (JS.code c) 160);
    simpl; try reflexivity; lia.
Qed.

Lemma allDigits_head (c : ascii) (r : string) :
  allDigits (String c r) = true ->
  (exists d, JS.digitValue 10 c = Some d) /\ allDigits r = true.
Proof.
  simpl. destruct (JS.digitValue 10 c) as [d|]; [|discriminate].
  intros H. split; [exists d; reflexivity|exact H].
Qed.

Lemma trimEnd_digits (s : string) :
  allDigits s = true -> JS.trimEnd s = s.
Proof.
  induction s as [|c r IH]; [reflexivity|].
  intros H. apply allDigits_head in H. destruct H as [[d D] R].
  simpl. rewrite (IH R). rewrite (digit_not_whiteSpace c d D).
  destruct r; reflexivity.
Qed.

Lemma trim_digits (s : string) :
  allDigits s = true -> JS.trim s = s.
Proof.
  intros H. unfold JS.trim.
  destruct s as [|c r]; [reflexivity|].
  pose proof (allDigits_head c r H) as [[d D] _].
  simpl JS.trimStart. rewrite (digit_not_whiteSpace c d D).
  apply trimEnd_digits, H.
Qed.

Lemma readDigits_digits (s : string) :
  allDigits s = true ->
  exists ds, JS.readDigits 10 s = (ds, EmptyString) /\ (s <> EmptyString -> ds <> []).
Proof.
  induction s as [|c r IH]; intros H.
  - exists []. split; [reflexivity|]. intros N. contradiction.
  - apply allDigits_head in H. destruct H as [[d D] R].
    destruct (IH R) as (ds & E & _).
    exists (d :: ds). simpl. rewrite D, E. split; [reflexivity|discriminate].
Qed.

Lemma radixPrefix_digits (s : string) :
  allDigits s = true -> JS.radixPrefix s = None.
Proof.
  destruct s as [|c [|p r]]; try reflexivity.
  - intros _. destruct c as [[] [] [] [] [] [] [] []]; reflexivity.
  - intros H. apply allDigits_head in H. destruct H as [_ H].
    apply allDigits_head in H. destruct H as [[d D] _].
    apply digit_code in D.
    assert (T : (if (JS.code p =? 120) || (JS.code p =? 88) then Some (16, r)
                 else if (JS.code p =? 111) || (JS.code p =? 79) then Some (8, r)
                 else if (JS.code p =? 98) || (JS.code p =? 66) then Some (2, r)
                 else None) = None).
    { destruct (Z.eqb_spec (JS.code p) 120), (Z.eqb_spec (JS.code p) 88),
        (Z.eqb_spec (JS.code p) 111), (Z.eqb_spec (JS.code p) 79),
        (Z.eqb_spec (JS.code p) 98), (Z.eqb_spec (JS.code p) 66);
        simpl; try reflexivity; lia. }
    destruct c as [[] [] [] [] [] [] [] []]; try reflexivity.
    exact T.
Qed.

(** A non-empty string of decimal digits reads as the integer it spells. *)
Lemma Number_digits (s : string) :
  allDigits s = true -> s <> EmptyString ->
  exists m, JS.Number s = JS.ofDecimal false m 0.
Proof.
  intros H N. unfold JS.Number. rewrite (trim_digits s H).
  destruct s as [|c r]; [contradiction|].
  pose proof (allDigits_head c r H) as [[d D] _].
  pose proof (digit_code c d D) as R.
  destruct (Z.eqb_spec (JS.code c) 43); [lia|].
  destruct (Z.eqb_spec (JS.code c) 45); [lia|].
  rewrite (radixPrefix_digits _ H).
  unfold JS.readSignedDecimal.
  destruct (String.eqb_spec (String c r) "Infinity") as [E|_].
  { injection E as -> _. vm_compute in D. discriminate. }
  unfold JS.readUnsignedDecimal.
  destruct (readDigits_digits _ H) as (ds & E & NE).
  rewrite E. destruct ds as [|d0 ds]; [exfalso; apply NE; [discriminate|reflexivity]|].
  simpl JS.readExponent. cbv iota beta.
  eexists. reflexivity.
Qed.

Lemma Number_digits_nonneg (s : string) :
  allDigits s = true -> s <> EmptyString ->
  JS.ge (JS.Number s) (JS.zero false) = true.
Proof.
  intros H N. destruct (Number_digits s H N) as [m ->].
  apply ofDecimal_integer_nonneg.
Qed.

(** *** A negative number needs a minus sign *)

Lemma ge_zero_not_negative (x : JS.number) :
  JS.ge x (JS.zero false) = true -> JS.lt x (JS.zero false) = false.
Proof.
  destruct x as [s|s| |s m e]; try destruct s; simpl; intros H;
    try reflexivity; discriminate.
Qed.

Lemma quotient_not_negative (m d : positive) :
  JS.lt (SFdiv JS.prec JS.emax (S754_finite false m 0) (S754_finite false d 0))
        (JS.zero false) = false.
Proof.
  unfold SFdiv.
  destruct (SFdiv_core_binary JS.prec JS.emax (Z.pos m) 0 (Z.pos d) 0)
    as [[mz ez] lz] eqn:E.
  apply ge_zero_not_negative. simpl xorb. apply binary_round_aux_nonneg.
  unfold SFdiv_core_binary in E.
  set (s := 0 - 0 - Z.min (fexp JS.prec JS.emax (Zdigits2 (Z.pos m) + 0
                                                  - (Zdigits2 (Z.pos d) + 0)))
                          (0 - 0)) in E.
  set (m' := match s with
             | Z.pos _ => Z.shiftl (Z.pos m) s
             | 0 => Z.pos m
             | Z.neg _ => 0
             end) in E.
  assert (P : 0 <= m').
  { subst m'. destruct s; try lia. apply Z.shiftl_nonneg. lia. }
  pose proof (Z.div_pos m' (Z.pos d) P ltac:(lia)) as Q.
  unfold Z.div in Q.
  destruct (Z.div_eucl m' (Z.pos d)) as [q r].
  injection E as <- _ _. exact Q.
Qed.

Lemma ofDecimal_not_negative (m k : Z) :
  JS.lt (JS.ofDecimal false m k) (JS.zero false) = false.
Proof.
  destruct m as [|p|p]; try reflexivity.
  unfold JS.ofDecimal, JS.roundDecimal.
  destruct k as [|e|e].
  - apply ge_zero_not_negative, binary_round_nonneg.
  - apply ge_zero_not_negative, binary_round_nonneg.
  - apply quotient_not_negative.
Qed.

Lemma readSignedDecimal_not_negative (s : string) :
  JS.lt (JS.readSignedDecimal false s) (JS.zero false) = false.
Proof.
  unfold JS.readSignedDecimal.
  destruct (String.eqb s "Infinity"); [reflexivity|].
  destruct (JS.readUnsignedDecimal s) as [[m k]|]; [|reflexivity].
  apply ofDecimal_not_negative.
Qed.

Lemma digitValue_nonneg (radix : Z) (c : ascii) (d : Z) :
  JS.digitValue radix c = Some d -> 0 <= d.
Proof.
  unfold JS.digitValue. set (n := JS.code c).
  destruct (Z.leb_spec 48 n), (Z.leb_spec n 57); simpl andb; cbv iota;
    try (destruct (_ <? radix); [intros Hd; injection Hd as <-; lia|discriminate]);
    destruct (Z.leb_spec 97 n), (Z.leb_spec n 102); simpl andb; cbv iota;
    try (destruct (_ <? radix); [intros Hd; injection Hd as <-; lia|discriminate]);
    destruct (Z.leb_spec 65 n), (Z.leb_spec n 70); simpl andb; cbv iota;
    destruct (_ <? radix); try discriminate; intros Hd; injection Hd as <-; lia.
Qed.

Lemma readDigits_nonneg (radix : Z) (s : string) :
  Forall (fun d => 0 <= d) (fst (JS.readDigits radix s)).
Proof.
  induction s as [|c r IH]; simpl; [constructor|].
  destruct (JS.digitValue radix c) as [d|] eqn:D; [|constructor].
  destruct (JS.readDigits radix r) as [ds rest]. simpl in *.
  constructor; [exact (digitValue_nonneg radix c d D)|exact IH].
Qed.

Lemma digitsValue_nonneg (radix : Z) (ds : list Z) :
  0 <= radix -> Forall (fun d => 0 <= d) ds -> 0 <= JS.digitsValue radix ds.
Proof.
  intros R. unfold JS.digitsValue.
  assert (G : forall acc, 0 <= acc -> Forall (fun d => 0 <= d) ds ->
                          0 <= fold_left (fun a d => a * radix + d) ds acc).
  { induction ds as [|d ds IH]; intros acc A F; simpl; [exact A|].
    inversion F; subst. apply IH; [nia|assumption]. }
  apply G. lia.
Qed.

Lemma readNonDecimal_not_negative (radix : Z) (s : string) :
  0 <= radix -> JS.lt (JS.readNonDecimal radix s) (JS.zero false) = false.
Proof.
  intros R. unfold JS.readNonDecimal.
  pose proof (readDigits_nonneg radix s) as F.
  destruct (JS.readDigits radix s) as [ds rest]. simpl in F.
  destruct ds as [|d ds]; [reflexivity|].
  destruct (JS.isEmpty rest); [|reflexivity].
  pose proof (digitsValue_nonneg radix (d :: ds) R F) as P.
  unfold JS.ofZ, binary_normalize.
  destruct (JS.digitsValue radix (d :: ds)) as [|p|p]; [reflexivity| |lia].
  apply ge_zero_not_negative, binary_round_nonneg.
Qed.

Lemma radixPrefix_radix (s r : string) (radix : Z) :
  JS.radixPrefix s = Some (radix, r) -> 0 <= radix.
Proof.
  unfold JS.radixPrefix.
  destruct s as [|c [|p t]]; try discriminate.
  - destruct c as [[] [] [] [] [] [] [] []]; discriminate.
  - destruct c as [[] [] [] [] [] [] [] []]; try discriminate.
    destruct ((JS.code p =? 120) || (JS.code p =? 88));
      [intros H; injection H as <- _; lia|].
    destruct ((JS.code p =? 111) || (JS.code p =? 79));
      [intros H; injection H as <- _; lia|].
    destruct ((JS.code p =? 98) || (JS.code p =? 66));
      [intros H; injection H as <- _; lia|discriminate].
Qed.

Lemma code_minus (c : ascii) : JS.code c = 45 -> c = "-"%char.
Proof.
  unfold JS.code. intros H.
  rewrite <- (ascii_N_embedding c).
  replace (N_of_ascii c) with 45%N by lia. reflexivity.
Qed.

(** [Number(s)] is below zero only when [s], trimmed, starts with a minus
    sign. *)
Lemma Number_negative_needs_minus (s : string) :
  JS.lt (JS.Number s) (JS.zero false) = true ->
  exists r, JS.trim s = String "-" r.
Proof.
  unfold JS.Number. destruct (JS.trim s) as [|c r]; [discriminate|].
  destruct (Z.eqb_spec (JS.code c) 43).
  { rewrite readSignedDecimal_not_negative. discriminate. }
  destruct (Z.eqb_spec (JS.code c) 45) as [M|_].
  { intros _. exists r. rewrite (code_minus c M). reflexivity. }
  destruct (JS.radixPrefix (String c r)) as [[radix digits]|] eqn:P.
  - rewrite (readNonDecimal_not_negative radix digits (radixPrefix_radix _ _ _ P)).
    discriminate.
  - rewrite readSignedDecimal_not_negative. discriminate.
Qed.

(* ===================================================================== *)
(** ** Properties of runs *)
(* ===================================================================== *)

(** More fuel does not change a run that has come to an end. *)
Lemma exec_mono {R} (fuel : nat) :
  forall (t : itree agentE R) (w w' : World) (st : Status R) (fuel' : nat),
    exec fuel t w = (w', st) -> st <> Running -> (fuel <= fuel')%nat ->
    exec fuel' t w = (w', st).
Proof.
  induction fuel as [|fuel IH]; intros t w w' st fuel' E N L.
  - simpl in E. injection E as _ <-. contradiction.
  - destruct fuel' as [|fuel']; [lia|].
    simpl in E |- *.
    destruct (observe t) as [r|t'|X e k].
    + exact E.
    + apply IH; [exact E|exact N|lia].
    + destruct (handle e w) as [w1 [x|st1]].
      * apply IH; [exact E|exact N|lia].
      * exact E.
Qed.

(** A call only adds to the trace. *)
Lemma handle_extends {X} (e : agentE X) (w : World) :
  exists o, trace (fst (handle e w)) = trace w ++ [o].
Proof.
  destruct e; simpl; try (eexists; reflexivity).
  destruct (pending w); simpl; eexists; reflexivity.
Qed.

Lemma exec_extends {R} (fuel : nat) :
  forall (t : itree agentE R) (w : World),
    exists more, trace (fst (exec fuel t w)) = trace w ++ more.
Proof.
  induction fuel as [|fuel IH]; intros t w; simpl.
  - exists []. symmetry. apply app_nil_r.
  - destruct (observe t) as [r|t'|X e k].
    + exists []. symmetry. apply app_nil_r.
    + apply IH.
    + destruct (handle_extends e w) as [o H].
      destruct (handle e w) as [w1 [x|st1]]; simpl in H.
      * destruct (IH (k x) w1) as [more M].
        exists (o :: more). rewrite M, H, <- app_assoc. reflexivity.
      * exists [o]. exact H.
Qed.

(** The trace of a run cut short is a prefix of the trace of a longer run. *)
Lemma exec_prefix {R} (fuel : nat) :
  forall (fuel' : nat) (t : itree agentE R) (w : World),
    (fuel <= fuel')%nat ->
    exists more,
      trace (fst (exec fuel' t w)) = trace (fst (exec fuel t w)) ++ more.
Proof.
  induction fuel as [|fuel IH]; intros fuel' t w L.
  - apply exec_extends.
  - destruct fuel' as [|fuel']; [lia|]. simpl.
    destruct (observe t) as [r|t'|X e k].
    + exists []. symmetry. apply app_nil_r.
    + apply IH. lia.
    + destruct (handle e w) as [w1 [x|st1]].
      * apply IH. lia.
      * exists []. symmetry. apply app_nil_r.
Qed.

(** Where an element that occurs once splits a list. *)
Lemma split_unique {A} (x : A) (a : list A) :
  forall b pre post,
    a ++ x :: b = pre ++ x :: post -> ~ In x a -> ~ In x b ->
    pre = a /\ post = b.
Proof.
  induction a as [|y a IH]; intros b pre post E Na Nb.
  - destruct pre as [|z pre]; simpl in E.
    + injection E as ->. auto.
    + injection E as <- E. exfalso. apply Nb. rewrite E.
      apply in_or_app. right. left. reflexivity.
  - destruct pre as [|z pre]; simpl in E.
    + injection E as -> _. exfalso. apply Na. left. reflexivity.
    + injection E as <- E.
      destruct (IH b pre post E) as [-> ->]; auto.
      intros H. apply Na. right. exact H.
Qed.

Section PollLoop.

Variable config : CopyTradingConfig.

Lemma pollLoop_waits (fuel : nat) (tr : list Observation) :
  exec (S fuel) (pollLoop config) {| pending := []; trace := tr |}
  = ({| pending := []; trace := tr ++ [Waiting tradeExecutor_syncWithLeader] |},
     Blocked).
Proof. reflexivity. Qed.

Lemma pollLoop_resolved (fuel : nat) (rs : list Outcome) (tr : list Observation) :
  exec (S (S (S fuel))) (pollLoop config)
       {| pending := Resolved :: rs; trace := tr |}
  = exec fuel (pollLoop config)
         {| pending := rs; trace := tr ++ iteration config Resolved |}.
Proof.
  replace (tr ++ iteration config Resolved)
    with ((tr ++ [Settled tradeExecutor_syncWithLeader Resolved])
            ++ [Slept (refreshAccountIntervalMs config)])
    by (rewrite <- app_assoc; reflexivity).
  reflexivity.
Qed.

Lemma pollLoop_rejected (fuel : nat) (error : exn) (rs : list Outcome)
      (tr : list Observation) :
  exec (S (S (S (S fuel)))) (pollLoop config)
       {| pending := Rejected error :: rs; trace := tr |}
  = exec fuel (pollLoop config)
         {| pending := rs; trace := tr ++ iteration config (Rejected error) |}.
Proof.
  replace (tr ++ iteration config (Rejected error))
    with (((tr ++ [Settled tradeExecutor_syncWithLeader (Rejected error)])
             ++ [Called (logger_error "Periodic sync failed" error)])
            ++ [Slept (refreshAccountIntervalMs config)])
    by (rewrite <- !app_assoc; reflexivity).
  reflexivity.
Qed.

(** However the calls of [syncWithLeader] settle, the loop runs one
    iteration per settlement and then waits for the next call. *)
Lemma pollLoop_runs (rs : list Outcome) :
  forall tr, exists fuel,
    exec fuel (pollLoop config) {| pending := rs; trace := tr |}
    = ({| pending := [];
          trace := tr ++ flat_map (iteration config) rs
                      ++ [Waiting tradeExecutor_syncWithLeader] |},
       Blocked).
Proof.
  induction rs as [|r rs IH]; intros tr.
  - exists 1%nat. apply pollLoop_waits.
  - destruct (IH (tr ++ iteration config r)) as [fuel E].
    rewrite <- app_assoc in E.
    exists (S (S (S (S fuel)))). destruct r as [|error].
    + rewrite pollLoop_resolved.
      apply (exec_mono fuel); [exact E|discriminate|lia].
    + rewrite pollLoop_rejected. exact E.
Qed.

(** No run of the loop, however long, ends the process or returns. *)
Lemma pollLoop_never_ends (fuel : nat) :
  forall w, snd (exec fuel (pollLoop config) w) = Blocked
            \/ snd (exec fuel (pollLoop config) w) = Running.
Proof.
  induction fuel as [fuel IH] using lt_wf_ind. intros [rs tr].
  destruct fuel as [|f1]; [right; reflexivity|].
  destruct rs as [|[|error] rs].
  - left. reflexivity.
  - destruct f1 as [|[|f3]]; [right; reflexivity|right; reflexivity|].
    rewrite pollLoop_resolved. apply IH. lia.
  - destruct f1 as [|[|[|f4]]]; [right; reflexivity|right; reflexivity|right; reflexivity|].
    rewrite pollLoop_rejected. apply IH. lia.
Qed.

End PollLoop.

(** C6. Whatever errors the calls of [tradeExecutor.syncWithLeader] raise
    inside [pollLoop], each one is caught and logged ("Periodic sync
    failed"), the configured delay follows, and the loop goes on to its
    next call; no run of the loop ends the process. *)
Theorem pollLoop_survives_sync_failures
        (config : CopyTradingConfig) (rs : list Outcome) (tr : list Observation) :
  (exists fuel,
      exec fuel (pollLoop config) {| pending := rs; trace := tr |}
      = ({| pending := [];
            trace := tr ++ flat_map (iteration config) rs
                        ++ [Waiting tradeExecutor_syncWithLeader] |},
         Blocked))
  /\ (forall error rest fuel,
         exec (4 + fuel) (pollLoop config)
              {| pending := Rejected error :: rest; trace := tr |}
         = exec fuel (pollLoop config)
                {| pending := rest;
                   trace := tr ++ [ Settled tradeExecutor_syncWithLeader (Rejected error);
                                    Called (logger_error "Periodic sync failed" error);
                                    Slept (refreshAccountIntervalMs config) ] |})
  /\ (forall fuel w code, snd (exec fuel (pollLoop config) w) <> Exited code).
Proof.
  split; [apply pollLoop_runs|].
  split; [intros error rest fuel; apply pollLoop_rejected|].
  intros fuel w code H.
  destruct (pollLoop_never_ends config fuel w) as [E|E];
    rewrite E in H; discriminate.
Qed.

Example pollLoop_three_iterations :
  exists fuel,
    exec fuel (pollLoop
                 {| environment := env_main;
                    leaderAddress := "0xabc";
                    followerPrivateKey := "0xdef";
                    followerVaultAddress := None;
                    syncIntervalMs := JS.ofZ 60000;
                    reconciliationIntervalMs := JS.ofZ 60000;
                    refreshAccountIntervalMs := JS.ofZ 300000;
                    websocketAggregateFills := true;
                    risk := {| minPositionUsd := JS.ofZ 40;
                               copyRatio := JS.ofZ 1;
                               maxLeverage := JS.ofZ 25;
                               maxNotionalUsd := JS.ofZ 1000000;
                               inverse := false;
                               maxSlippageBps := JS.ofZ 50 |} |})
         (start [Rejected (Error "timeout"); Resolved; Rejected (TypeError "x")])
    = ({| pending := [];
          trace :=
            [ Settled tradeExecutor_syncWithLeader (Rejected (Error "timeout"));
              Called (logger_error "Periodic sync failed" (Error "timeout"));
              Slept (JS.ofZ 300000);
              Settled tradeExecutor_syncWithLeader Resolved;
              Slept (JS.ofZ 300000);
              Settled tradeExecutor_syncWithLeader (Rejected (TypeError "x"));
              Called (logger_error "Periodic sync failed" (TypeError "x"));
              Slept (JS.ofZ 300000);
              Waiting tradeExecutor_syncWithLeader ] |},
       Blocked).
Proof. exists 12%nat. vm_compute. reflexivity. Qed.

(** *** [main] *)

Lemma main_runs (env : ProcessEnv) (rs : list Outcome) :
  exec 24 (main env) (start rs) = main_run env rs.
Proof.
  unfold main_run, main, main_try, call_loadConfig.
  destruct (loadConfig_cases env) as [(message & E & _)|(config & E & _)];
    rewrite E; cbn [completion console].
  - reflexivity.
  - destruct rs as [|[|error] [|[|error'] rest]]; reflexivity.
Qed.

Lemma main_run_ended (env : ProcessEnv) (rs : list Outcome) :
  snd (main_run env rs) <> Running.
Proof.
  unfold main_run.
  destruct (completion (loadConfig env)); [|discriminate].
  destruct rs as [|[|error] [|[|error'] rest]]; discriminate.
Qed.

Lemma main_runs_longer (env : ProcessEnv) (rs : list Outcome) (fuel : nat) :
  (24 <= fuel)%nat -> exec fuel (main env) (start rs) = main_run env rs.
Proof.
  intros L. pose proof (main_runs env rs) as E.
  destruct (main_run env rs) as [w st] eqn:M.
  apply (exec_mono 24); [exact E| |exact L].
  pose proof (main_run_ended env rs) as N. rewrite M in N. exact N.
Qed.

(** In the complete run of [main], [reconciler.start()] comes after one
    call of [reconcileOnce] that resolved, and none follows it. *)
Lemma main_run_order (env : ProcessEnv) (rs : list Outcome)
      (pre post : list Observation) :
  trace (fst (main_run env rs)) = pre ++ Called reconciler_start :: post ->
  filter isReconcileOnce pre = [Settled reconciler_reconcileOnce Resolved]
  /\ filter isReconcileOnce post = []
  /\ ~ In (Called reconciler_start) pre
  /\ ~ In (Called reconciler_start) post.
Proof.
  intros E.
  assert (H : In (Called reconciler_start) (trace (fst (main_run env rs)))).
  { rewrite E. apply in_elt. }
  unfold main_run in E, H.
  destruct (completion (loadConfig env)) as [config|error];
    [destruct rs as [|[|error] [|[|error'] rest]]|]; try not_in_trace H.
  clear H.
  assert (E' : (boot config ++
                  [Settled subscriptions_start Resolved;
                   Settled reconciler_reconcileOnce Resolved])
                 ++ Called reconciler_start
                 :: [Called void_pollLoop; Called (process_on "SIGINT");
                     Called (process_on "SIGTERM")]
               = pre ++ Called reconciler_start :: post) by exact E.
  apply split_unique in E'.
  - destruct E' as [-> ->]. split; [reflexivity|]. split; [reflexivity|].
    split; intros H; not_in_trace H.
  - intros H; not_in_trace H.
  - intros H; not_in_trace H.
Qed.

(** Any run of [main], cut short or not. *)
Lemma main_order (env : ProcessEnv) (rs : list Outcome) (fuel : nat)
      (pre post : list Observation) :
  trace (fst (exec fuel (main env) (start rs)))
    = pre ++ Called reconciler_start :: post ->
  filter isReconcileOnce pre = [Settled reconciler_reconcileOnce Resolved]
  /\ filter isReconcileOnce post = []
  /\ ~ In (Called reconciler_start) pre
  /\ ~ In (Called reconciler_start) post.
Proof.
  intros E.
  destruct (Nat.le_gt_cases 24 fuel) as [L|L].
  - rewrite (main_runs_longer env rs fuel L) in E.
    apply (main_run_order env rs), E.
  - destruct (exec_prefix fuel 24 (main env) (start rs)) as [more M]; [lia|].
    rewrite main_runs, E, <- app_assoc in M. simpl in M.
    destruct (main_run_order env rs pre (post ++ more) M) as (P1 & P2 & P3 & P4).
    rewrite filter_app in P2. apply app_eq_nil in P2.
    repeat split; [exact P1|apply P2|exact P3|].
    intros H. apply P4, in_or_app. left. exact H.
Qed.

(** C7. [main] makes one eager reconciliation pass and awaits it to
    completion before it starts the periodic reconciliation loop: in every
    run, [reconciler.start()] is preceded by exactly one call of
    [reconciler.reconcileOnce()], which resolved, and is followed by none;
    when the configuration loads and both awaited calls resolve the loop is
    started, and when the pass rejects it is not. *)
Theorem startup_reconciliation_precedes_start
        (env : ProcessEnv) (rs : list Outcome) :
  (forall fuel pre post,
      trace (fst (exec fuel (main env) (start rs)))
        = pre ++ Called reconciler_start :: post ->
      filter isReconcileOnce pre = [Settled reconciler_reconcileOnce Resolved]
      /\ filter isReconcileOnce post = []
      /\ ~ In (Called reconciler_start) pre
      /\ ~ In (Called reconciler_start) post)
  /\ (forall config rest,
         completion (loadConfig env) = Normal config ->
         rs = Resolved :: Resolved :: rest ->
         forall fuel, (24 <= fuel)%nat ->
           exec fuel (main env) (start rs)
           = ({| pending := rest;
                 trace := boot config
                            ++ Settled subscriptions_start Resolved
                            :: Settled reconciler_reconcileOnce Resolved
                            :: started |},
              Returned tt))
  /\ (forall config error rest,
         completion (loadConfig env) = Normal config ->
         rs = Resolved :: Rejected error :: rest ->
         forall fuel, (24 <= fuel)%nat ->
           exec fuel (main env) (start rs)
           = ({| pending := rest;
                 trace := boot config
                            ++ Settled subscriptions_start Resolved
                            :: Settled reconciler_reconcileOnce (Rejected error)
                            :: fatal error |},
              Exited 1)).
Proof.
  split; [intros fuel pre post; apply main_order|].
  split.
  - intros config rest C -> fuel L.
    rewrite (main_runs_longer env _ fuel L). unfold main_run. rewrite C. reflexivity.
  - intros config error rest C -> fuel L.
    rewrite (main_runs_longer env _ fuel L). unfold main_run. rewrite C. reflexivity.
Qed.

(** The run of [main] under [baseEnv] with both awaited calls resolved. *)
Lemma startup_reconciliation_witness :
  exists config,
    loaded baseEnv = Some config
    /\ trace (fst (exec 24 (main baseEnv) (start [Resolved; Resolved])))
       = (boot config
            ++ [ Settled subscriptions_start Resolved;
                 Settled reconciler_reconcileOnce Resolved ])
           ++ Called reconciler_start
           :: [ Called void_pollLoop;
                Called (process_on "SIGINT");
                Called (process_on "SIGTERM") ]
    /\ filter isReconcileOnce
         (boot config
            ++ [ Settled subscriptions_start Resolved;
                 Settled reconciler_reconcileOnce Resolved ])
       = [Settled reconciler_reconcileOnce Resolved]
    /\ filter isReconcileOnce
         [ Called void_pollLoop;
           Called (process_on "SIGINT");
           Called (process_on "SIGTERM") ]
       = [].
Proof.
  eexists. split; [vm_compute; reflexivity|].
  match goal with
  | |- ?T /\ _ => assert (E : T) by (vm_compute; reflexivity)
  end.
  split; [exact E|].
  destruct (proj1 (startup_reconciliation_precedes_start baseEnv [Resolved; Resolved])
              24%nat _ _ E) as (P & Q & _).
  split; [exact P|exact Q].
Defined.

(** C4. [loadConfig] throws exactly when LEADER_ADDRESS or
    FOLLOWER_PRIVATE_KEY is absent or empty, and returns a configuration
    for every other environment; when it throws, [main] logs the error as
    fatal and exits the process with code 1. *)
Theorem loadConfig_throws_iff_identifier_missing (env : ProcessEnv) :
  ((exists error, completion (loadConfig env) = Throw error) <->
     missing env "LEADER_ADDRESS" \/ missing env "FOLLOWER_PRIVATE_KEY")
  /\ ((exists config, completion (loadConfig env) = Normal config) <->
        ~ (missing env "LEADER_ADDRESS" \/ missing env "FOLLOWER_PRIVATE_KEY"))
  /\ (forall error,
         completion (loadConfig env) = Throw error ->
         forall rs fuel, (24 <= fuel)%nat ->
           exec fuel (main env) (start rs)
           = ({| pending := rs;
                 trace :=
                   [ Called dotenv_config;
                     Called (logger_error "Fatal error in copy trading agent" error);
                     Exiting 1 ] |},
              Exited 1)).
Proof.
  destruct (loadConfig_cases env) as [(message & E & M)|(config & E & NL & NF)].
  - split; [|split].
    + split; [intros _; exact M|]. intros _. rewrite E. eexists. reflexivity.
    + split.
      * intros [config C]. rewrite E in C. discriminate.
      * intros N. contradiction.
    + intros error C rs fuel L.
      rewrite (main_runs_longer env rs fuel L). unfold main_run. rewrite C.
      reflexivity.
  - split; [|split].
    + split.
      * intros [error C]. rewrite E in C. discriminate.
      * intros [M|M]; contradiction.
    + split.
      * intros _ [M|M]; contradiction.
      * intros _. exists config. rewrite E. reflexivity.
    + intros error C. rewrite E in C. discriminate.
Qed.

(** Without LEADER_ADDRESS [main] logs the error and exits with code 1. *)
Lemma loadConfig_throws_witness :
  exec 24 (main (unsetEnv "LEADER_ADDRESS" baseEnv)) (start [])
  = ({| pending := [];
        trace :=
          [ Called dotenv_config;
            Called (logger_error "Fatal error in copy trading agent"
                                 (Error "LEADER_ADDRESS is required"));
            Exiting 1 ] |},
     Exited 1).
Proof.
  exact (proj2 (proj2 (loadConfig_throws_iff_identifier_missing
                         (unsetEnv "LEADER_ADDRESS" baseEnv)))
               (Error "LEADER_ADDRESS is required") eq_refl [] 24%nat (le_n 24)).
Defined.

Example loadConfig_empty_private_key :
  completion (loadConfig (setEnv "FOLLOWER_PRIVATE_KEY" "" baseEnv))
  = Throw (Error "FOLLOWER_PRIVATE_KEY is required").
Proof. vm_compute. reflexivity. Qed.

(** *** [shutdown] *)

Lemma shutdown_runs (signal : string) (rs : list Outcome) (fuel : nat) :
  (8 <= fuel)%nat ->
  exec fuel (shutdown signal) (start rs) = shutdown_run signal rs.
Proof.
  intros L.
  assert (E : exec 8 (shutdown signal) (start rs) = shutdown_run signal rs).
  { destruct rs as [|[|error] [|[|error'] rest]]; reflexivity. }
  destruct (shutdown_run signal rs) as [w st] eqn:M.
  apply (exec_mono 8); [exact E| |exact L].
  unfold shutdown_run in M.
  destruct rs as [|r1 [|r2 rest]]; injection M as _ <-; discriminate.
Qed.

(** C8. The shutdown handler exits only after [subscriptions.stop()] has
    settled (a rejection being logged) and after the close of the WebSocket
    transport has settled, in that order; it exits with code 0 however the
    two settle, so a failure of [stop()] does not prevent the exit. *)
Theorem shutdown_awaits_before_exit (signal : string) (rs : list Outcome) :
  (forall fuel w' code,
      exec fuel (shutdown signal) (start rs) = (w', Exited code) ->
      code = 0
      /\ exists r1 r2 rest,
          rs = r1 :: r2 :: rest
          /\ w' = {| pending := rest;
                     trace :=
                       [ Called (logger_warn ("Received " ++ signal ++ ", shutting down")%string);
                         Settled subscriptions_stop r1 ]
                       ++ stopLog r1
                       ++ [ Called reconciler_stop;
                            Settled wsTransport_close r2;
                            Exiting 0 ] |})
  /\ (forall r1 r2 rest,
         rs = r1 :: r2 :: rest ->
         forall fuel, (8 <= fuel)%nat ->
           exec fuel (shutdown signal) (start rs)
           = ({| pending := rest;
                 trace :=
                   [ Called (logger_warn ("Received " ++ signal ++ ", shutting down")%string);
                     Settled subscriptions_stop r1 ]
                   ++ stopLog r1
                   ++ [ Called reconciler_stop;
                        Settled wsTransport_close r2;
                        Exiting 0 ] |},
              Exited 0)).
Proof.
  split.
  - intros fuel w' code E.
    apply (exec_mono fuel _ _ _ _ (Nat.max fuel 8)) in E; [|discriminate|lia].
    rewrite shutdown_runs in E by lia.
    unfold shutdown_run in E.
    destruct rs as [|r1 [|r2 rest]]; try discriminate.
    injection E as <- <-. split; [reflexivity|].
    exists r1, r2, rest. split; reflexivity.
  - intros r1 r2 rest -> fuel L.
    rewrite (shutdown_runs signal _ fuel L). reflexivity.
Qed.

(** [subscriptions.stop()] rejects, the transport closes: exit with 0. *)
Lemma shutdown_awaits_witness :
  exec 8 (shutdown "SIGTERM") (start [Rejected (Error "socket closed"); Resolved])
  = ({| pending := [];
        trace :=
          [ Called (logger_warn "Received SIGTERM, shutting down");
            Settled subscriptions_stop (Rejected (Error "socket closed"));
            Called (logger_error "Failed to stop subscriptions cleanly"
                                 (Error "socket closed"));
            Called reconciler_stop;
            Settled wsTransport_close Resolved;
            Exiting 0 ] |},
     Exited 0).
Proof.
  exact (proj2 (shutdown_awaits_before_exit
                  "SIGTERM" [Rejected (Error "socket closed"); Resolved])
               (Rejected (Error "socket closed")) Resolved [] eq_refl
               8%nat (le_n 8)).
Defined.

(* ===================================================================== *)
(** ** Properties of the override of [syncWithLeader] *)
(* ===================================================================== *)

(** The [try] block touches nothing but the log, to which it adds at most
    the one line. *)
Lemma syncWithLeader_try_frame (this : Receiver) (s : Store) :
  leaderState (fst (syncWithLeader_try this s)) = leaderState s
  /\ followerState (fst (syncWithLeader_try this s)) = followerState s
  /\ orders (fst (syncWithLeader_try this s)) = orders s
  /\ (log (fst (syncWithLeader_try this s)) = log s
      \/ log (fst (syncWithLeader_try this s)) = log s ++ [disabledEntry]).
Proof.
  destruct this as [|[r [|[|[[|] c]|e]|e]]]; simpl; auto 6.
Qed.

Lemma syncWithLeader_fst (this : Receiver) (args : list JS.value) (s : Store) :
  fst (syncWithLeader this args s) = fst (syncWithLeader_try this s).
Proof.
  unfold syncWithLeader.
  destruct (syncWithLeader_try this s) as [s' [v|e]]; reflexivity.
Qed.

Lemma syncWithLeader_resolves (this : Receiver) (args : list JS.value) (s : Store) :
  snd (syncWithLeader this args s) = Fulfilled JS.undefined.
Proof.
  unfold syncWithLeader.
  destruct (syncWithLeader_try this s) as [s' [v|e]]; reflexivity.
Qed.

(** C3. With the override installed, every call of [syncWithLeader], for
    every receiver and every argument list, resolves (also when the logger
    is missing, is not callable or throws), leaves LeaderState and
    FollowerState as they were and submits no order; all it may do is add
    its one line to the log. *)
Theorem syncWithLeader_noop (this : Receiver) (args : list JS.value) (s : Store) :
  snd (syncWithLeader this args s) = Fulfilled JS.undefined
  /\ leaderState (fst (syncWithLeader this args s)) = leaderState s
  /\ followerState (fst (syncWithLeader this args s)) = followerState s
  /\ orders (fst (syncWithLeader this args s)) = orders s
  /\ (log (fst (syncWithLeader this args s)) = log s
      \/ log (fst (syncWithLeader this args s)) = log s ++ [disabledEntry]).
Proof.
  split; [apply syncWithLeader_resolves|].
  rewrite syncWithLeader_fst. apply syncWithLeader_try_frame.
Qed.

Example syncWithLeader_logger_throws :
  syncWithLeader (this_object {| executorRisk :=
                                    {| minPositionUsd := JS.ofZ 40;
                                       copyRatio := JS.ofZ 1;
                                       maxLeverage := JS.ofZ 25;
                                       maxNotionalUsd := JS.ofZ 1000000;
                                       inverse := false;
                                       maxSlippageBps := JS.ofZ 50 |};
                                  logger := throwingLogger |})
                 [] driftedStore
  = (driftedStore, Fulfilled JS.undefined).
Proof. reflexivity. Qed.

Example syncWithLeader_without_receiver :
  syncWithLeader this_undefined [JS.ofString "BTC"] driftedStore
  = (driftedStore, Fulfilled JS.undefined).
Proof. reflexivity. Qed.

(** With the override installed the promise of every call resolves, so the
    [catch] handler of [pollLoop] is not entered: a loop whose calls all
    resolve logs no error. *)
Lemma override_settles_resolved (this : Receiver) (args : list JS.value) (s : Store) :
  settled (snd (syncWithLeader this args s)) = Resolved.
Proof. rewrite syncWithLeader_resolves. reflexivity. Qed.

Lemma pollLoop_quiet (config : CopyTradingConfig) (n : nat) :
  existsb isErrorLog (flat_map (iteration config) (repeat Resolved n)) = false.
Proof.
  induction n as [|n IH]; [reflexivity|]. simpl. exact IH.
Qed.

(** C1, as stated, fails: no configuration makes the periodic sync path
    trade.  With the follower flat against a leader long 10 BTC, the call
    places no order whether the configuration is the default one or any
    other. *)
Lemma no_configuration_enables_drift_correction :
  (~ exists config, performsCorrectiveTrading config)
  /\ (exists config,
        loaded baseEnv = Some config
        /\ syncWithLeader (newTradeExecutor config writingLogger) [] driftedStore
           = ({| leaderState := leaderState driftedStore;
                 followerState := [];
                 orders := [];
                 log := [disabledEntry] |}, Fulfilled JS.undefined)).
Proof.
  split.
  - intros (config & lg & args & s & H). apply H.
    rewrite syncWithLeader_fst. apply syncWithLeader_try_frame.
  - eexists. split; [vm_compute; reflexivity|reflexivity].
Qed.

(** C1, amended. The periodic sync path is fixed to the copy-only mode:
    the override behaves the same whatever configuration the executor was
    built from, and places no order under any of them. *)
Theorem syncWithLeader_mode_fixed
        (config1 config2 : CopyTradingConfig) (lg : LoggerProperty)
        (args : list JS.value) (s : Store) :
  syncWithLeader (newTradeExecutor config1 lg) args s
  = syncWithLeader (newTradeExecutor config2 lg) args s
  /\ orders (fst (syncWithLeader (newTradeExecutor config1 lg) args s)) = orders s
  /\ ~ performsCorrectiveTrading config1.
Proof.
  split; [reflexivity|]. split.
  - rewrite syncWithLeader_fst. apply syncWithLeader_try_frame.
  - intros (lg' & args' & s' & H). apply H.
    rewrite syncWithLeader_fst. apply syncWithLeader_try_frame.
Qed.

(* ===================================================================== *)
(** ** The fill callback *)
(* ===================================================================== *)

(** C2, as stated, fails: on a fill of 10 BTC the callback registered in
    [main] makes one call, [tradeExecutor.syncWithLeader()], where the hook
    of the spec applies the fill and then syncs the asset BTC. *)
Lemma onLeaderFill_differs_from_spec :
  trace (fst (exec 3 (onLeaderFill btcFill) (start [Resolved])))
  = [Settled tradeExecutor_syncWithLeader Resolved]
  /\ trace (fst (exec 3 (onLeaderFill_spec btcFill) (start [Resolved])))
     = [Called (leaderState_applyFill btcFill);
        Settled (tradeExecutor_syncAsset "BTC") Resolved]
  /\ existsb isApplyFill
       (trace (fst (exec 3 (onLeaderFill btcFill) (start [Resolved])))) = false
  /\ existsb isSyncAsset
       (trace (fst (exec 3 (onLeaderFill btcFill) (start [Resolved])))) = false
  /\ existsb isSyncWithLeader
       (trace (fst (exec 3 (onLeaderFill btcFill) (start [Resolved])))) = true.
Proof. repeat split. Qed.

(** C2, amended. For every fill event the callback registered in [main]
    drops the event and makes one call, [tradeExecutor.syncWithLeader()],
    the entry point for the whole account and not a sync of the asset of
    the fill: the callback returns what that call settles with, or waits
    for it; at no point of its run has it applied the fill to LeaderState
    or called [syncAsset]. *)
Theorem onLeaderFill_calls_syncWithLeader_only
        (event : FillEvent) (w : World) (fuel : nat) :
  exec (S (S fuel)) (onLeaderFill event) w
  = match pending w with
    | r :: rest =>
        ({| pending := rest;
            trace := trace w ++ [Settled tradeExecutor_syncWithLeader r] |},
         Returned r)
    | [] =>
        ({| pending := [];
            trace := trace w ++ [Waiting tradeExecutor_syncWithLeader] |},
         Blocked)
    end
  /\ (forall event',
        exec fuel (onLeaderFill event') w = exec fuel (onLeaderFill event) w)
  /\ (exists added,
        trace (fst (exec fuel (onLeaderFill event) w)) = trace w ++ added
        /\ (List.length added <= 1)%nat
        /\ forallb isSyncWithLeader added = true
        /\ existsb isApplyFill added = false
        /\ existsb isSyncAsset added = false).
Proof.
  split; [|split].
  - destruct w as [[|r rest] tr]; reflexivity.
  - reflexivity.
  - destruct fuel as [|[|fuel]].
    + exists []. rewrite app_nil_r. repeat split. simpl. lia.
    + destruct w as [[|r rest] tr]; eexists; repeat split; simpl; lia.
    + destruct w as [[|r rest] tr]; eexists; repeat split; simpl; lia.
Qed.

(* ===================================================================== *)
(** ** The copy ratio *)
(* ===================================================================== *)

(** C5, as stated, fails: with COPY_RATIO=-1 [loadConfig] returns a
    configuration whose [copyRatio] is -1. *)
Lemma copyRatio_negative :
  exists config,
    loaded negativeRatioEnv = Some config
    /\ copyRatio (risk config) = SFopp (JS.ofZ 1)
    /\ JS.ge (copyRatio (risk config)) (JS.zero false) = false.
Proof. eexists. repeat split; vm_compute; reflexivity. Qed.

Example copyRatio_not_a_number :
  exists config,
    loaded (setEnv "COPY_RATIO" "half" baseEnv) = Some config
    /\ copyRatio (risk config) = JS.NaN
    /\ JS.ge (copyRatio (risk config)) (JS.zero false) = false.
Proof. eexists. repeat split; vm_compute; reflexivity. Qed.

(** C5, amended. [loadConfig] takes [copyRatio] from COPY_RATIO unchecked:
    it is the numeric value of the variable, and 1 when the variable is
    unset.  So [copyRatio >= 0] holds when COPY_RATIO is unset or is a
    non-empty string of decimal digits, and [copyRatio] is below zero only
    when COPY_RATIO, trimmed, starts with a minus sign. *)
Theorem copyRatio_unchecked (env : ProcessEnv) (config : CopyTradingConfig) :
  completion (loadConfig env) = Normal config ->
  copyRatio (risk config) = JS.Number (JS.nullish (env "COPY_RATIO") "1")
  /\ (env "COPY_RATIO" = None ->
      copyRatio (risk config) = JS.ofZ 1
      /\ JS.ge (copyRatio (risk config)) (JS.zero false) = true)
  /\ (forall s,
         env "COPY_RATIO" = Some s ->
         copyRatio (risk config) = JS.Number s
         /\ (allDigits s = true -> s <> EmptyString ->
             JS.ge (copyRatio (risk config)) (JS.zero false) = true)
         /\ (JS.lt (copyRatio (risk config)) (JS.zero false) = true ->
             exists r, JS.trim s = String "-" r)).
Proof.
  intros H. rewrite (loadConfig_risk env config H). cbn [copyRatio].
  split; [reflexivity|]. split.
  - intros ->. simpl JS.nullish. rewrite Number_1. split; reflexivity.
  - intros s ->. simpl JS.nullish. split; [reflexivity|]. split.
    + apply Number_digits_nonneg.
    + apply Number_negative_needs_minus.
Qed.

Lemma copyRatio_unchecked_witness :
  exists config,
    loaded (setEnv "COPY_RATIO" "2" baseEnv) = Some config
    /\ copyRatio (risk config) = JS.ofZ 2.
Proof.
  destruct (completion (loadConfig (setEnv "COPY_RATIO" "2" baseEnv)))
    as [config|e] eqn:E.
  - exists config. split.
    + unfold loaded. rewrite E. reflexivity.
    + destruct (copyRatio_unchecked _ config E) as (-> & _).
      vm_compute. reflexivity.
  - vm_compute in E. discriminate.
Defined.

(* ===================================================================== *)
(** ** Further properties of [loadConfig] *)
(* ===================================================================== *)

Lemma setEnv_same (name value : string) (env : ProcessEnv) :
  setEnv name value env name = Some value.
Proof. unfold setEnv. rewrite String.eqb_refl. reflexivity. Qed.

Lemma setEnv_other (name value : string) (env : ProcessEnv) (k : string) :
  k <> name -> setEnv name value env k = env k.
Proof.
  intros N. unfold setEnv.
  destruct (String.eqb_spec k name); [contradiction|reflexivity].
Qed.

(** A loaded configuration, field by field. *)
Lemma loadConfig_fields (env : ProcessEnv) (config : CopyTradingConfig) :
  completion (loadConfig env) = Normal config ->
  environment config = normalizeEnvironment (env "HYPERLIQUID_ENVIRONMENT")
  /\ env "LEADER_ADDRESS" = Some (leaderAddress config)
  /\ leaderAddress config <> EmptyString
  /\ env "FOLLOWER_PRIVATE_KEY" = Some (followerPrivateKey config)
  /\ followerPrivateKey config <> EmptyString
  /\ followerVaultAddress config = env "FOLLOWER_VAULT_ADDRESS"
  /\ syncIntervalMs config = JS.Number (JS.nullish (env "SYNC_INTERVAL_MS") "60000")
  /\ reconciliationIntervalMs config
     = match env "RECONCILIATION_INTERVAL_MS" with
       | Some s => JS.Number s
       | None => JS.NumberOfString (syncIntervalMs config)
       end
  /\ refreshAccountIntervalMs config
     = JS.Number (JS.nullish (env "REFRESH_ACCOUNT_INTERVAL_MS") "300000")
  /\ websocketAggregateFills config
     = String.eqb (JS.nullish (env "WEBSOCKET_AGGREGATE_FILLS") "true") "true".
Proof.
  unfold loadConfig.
  destruct (env "LEADER_ADDRESS") as [[|c s]|]; try discriminate.
  destruct (env "FOLLOWER_PRIVATE_KEY") as [[|c' s']|]; try discriminate.
  cbn [completion]. intros H. injection H as <-.
  cbn [environment leaderAddress followerPrivateKey followerVaultAddress
       syncIntervalMs reconciliationIntervalMs refreshAccountIntervalMs
       websocketAggregateFills].
  repeat split; discriminate.
Qed.

(** X1. [loadConfig] checks LEADER_ADDRESS before FOLLOWER_PRIVATE_KEY: it
    throws "LEADER_ADDRESS is required" exactly when LEADER_ADDRESS is
    missing, also when both are, and "FOLLOWER_PRIVATE_KEY is required"
    exactly when only the private key is missing; it writes nothing to the
    console before it throws. *)
Theorem loadConfig_error_precedence (env : ProcessEnv) :
  (completion (loadConfig env) = Throw (Error "LEADER_ADDRESS is required") <->
     missing env "LEADER_ADDRESS")
  /\ (completion (loadConfig env) = Throw (Error "FOLLOWER_PRIVATE_KEY is required") <->
        ~ missing env "LEADER_ADDRESS" /\ missing env "FOLLOWER_PRIVATE_KEY")
  /\ (forall error,
         completion (loadConfig env) = Throw error -> console (loadConfig env) = []).
Proof.
  unfold loadConfig, missing.
  destruct (env "LEADER_ADDRESS") as [[|c s]|];
    [|destruct (env "FOLLOWER_PRIVATE_KEY") as [[|c' s']|]|];
    cbn [completion console];
    repeat split; intros; try discriminate; try reflexivity;
    intuition discriminate.
Qed.

(** X2. When none of the optional variables is set, the loaded
    configuration is the default one: mainnet, no vault, minimum position
    40, copy ratio 1, leverage 25, notional 1000000, no inverse copy,
    slippage 50, intervals 60000, 60000 and 300000, aggregated fills. *)
Theorem loadConfig_defaults (env : ProcessEnv) (config : CopyTradingConfig) :
  completion (loadConfig env) = Normal config ->
  (forall name, In name optionalVariables -> env name = None) ->
  environment config = env_main
  /\ followerVaultAddress config = None
  /\ risk config
     = {| minPositionUsd := JS.ofZ 40;
          copyRatio := JS.ofZ 1;
          maxLeverage := JS.ofZ 25;
          maxNotionalUsd := JS.ofZ 1000000;
          inverse := false;
          maxSlippageBps := JS.ofZ 50 |}
  /\ syncIntervalMs config = JS.ofZ 60000
  /\ reconciliationIntervalMs config = JS.ofZ 60000
  /\ refreshAccountIntervalMs config = JS.ofZ 300000
  /\ websocketAggregateFills config = true.
Proof.
  intros H U.
  destruct (loadConfig_fields env config H)
    as (E & _ & _ & _ & _ & V & S & R & F & W).
  rewrite (loadConfig_risk env config H), E, V, R, S, F, W.
  unset_variables U.
  vm_compute. repeat split.
Qed.

Lemma loadConfig_defaults_witness :
  exists config,
    loaded baseEnv = Some config
    /\ copyRatio (risk config) = JS.ofZ 1
    /\ refreshAccountIntervalMs config = JS.ofZ 300000.
Proof.
  destruct (completion (loadConfig baseEnv)) as [config|e] eqn:E.
  - exists config. split; [unfold loaded; rewrite E; reflexivity|].
    assert (U : forall name, In name optionalVariables -> baseEnv name = None).
    { intros name I. simpl in I.
      repeat (destruct I as [<-|I]; [reflexivity|]). contradiction. }
    destruct (loadConfig_defaults baseEnv config E U) as (_ & _ & R & _ & _ & F & _).
    rewrite R, F. split; reflexivity.
  - vm_compute in E. discriminate.
Defined.

(** X3. [loadConfig] reads no variable but the fifteen it names: setting
    any other variable changes neither what it returns nor what it logs. *)
Theorem loadConfig_ignores_other_variables
        (env : ProcessEnv) (name value : string) :
  ~ In name readVariables ->
  loadConfig (setEnv name value env) = loadConfig env.
Proof.
  intros N.
  assert (O : forall k, In k readVariables -> setEnv name value env k = env k).
  { intros k I. apply setEnv_other. intros ->. contradiction. }
  unfold loadConfig.
  rewrite !O by (simpl; tauto).
  reflexivity.
Qed.

Lemma loadConfig_ignores_other_variables_witness :
  loadConfig (setEnv "NODE_ENV" "production" baseEnv) = loadConfig baseEnv.
Proof.
  apply loadConfig_ignores_other_variables.
  simpl. intros H.
  repeat (destruct H as [H|H]; [discriminate|]). exact H.
Defined.

(** X4. The lines [loadConfig] writes with [console.log] do not depend on
    the follower private key: two environments that differ in
    FOLLOWER_PRIVATE_KEY only, both with a key, give the same lines. *)
Theorem loadConfig_console_hides_private_key
        (env : ProcessEnv) (key1 key2 : string) :
  key1 <> EmptyString -> key2 <> EmptyString ->
  console (loadConfig (setEnv "FOLLOWER_PRIVATE_KEY" key1 env))
  = console (loadConfig (setEnv "FOLLOWER_PRIVATE_KEY" key2 env)).
Proof.
  intros N1 N2. unfold loadConfig.
  rewrite !setEnv_same.
  rewrite !setEnv_other by discriminate.
  destruct (env "LEADER_ADDRESS") as [[|c s]|]; try reflexivity.
  destruct key1 as [|c1 k1]; [contradiction|].
  destruct key2 as [|c2 k2]; [contradiction|].
  reflexivity.
Qed.

Lemma loadConfig_console_hides_private_key_witness :
  console (loadConfig (setEnv "FOLLOWER_PRIVATE_KEY" "0x01" baseEnv))
  = console (loadConfig (setEnv "FOLLOWER_PRIVATE_KEY" "0x02" baseEnv)).
Proof.
  apply loadConfig_console_hides_private_key; discriminate.
Defined.

(** X5. The two boolean settings are exact string comparisons with
    ["true"]: inverse copy is on exactly when INVERSE_COPY is the string
    ["true"], and aggregated fills are off exactly when
    WEBSOCKET_AGGREGATE_FILLS is set to anything else than ["true"]. *)
Theorem loadConfig_flags_exact (env : ProcessEnv) (config : CopyTradingConfig) :
  completion (loadConfig env) = Normal config ->
  (inverse (risk config) = true <-> env "INVERSE_COPY" = Some "true")
  /\ (websocketAggregateFills config = false <->
        exists s, env "WEBSOCKET_AGGREGATE_FILLS" = Some s /\ s <> "true").
Proof.
  intros H.
  destruct (loadConfig_fields env config H) as (_ & _ & _ & _ & _ & _ & _ & _ & _ & W).
  rewrite (loadConfig_risk env config H), W. cbn [inverse].
  split.
  - destruct (env "INVERSE_COPY") as [s|]; simpl JS.nullish.
    + destruct (String.eqb_spec s "true") as [->|N]; split; auto; try discriminate.
      intros E. injection E as ->. contradiction.
    + split; discriminate.
  - destruct (env "WEBSOCKET_AGGREGATE_FILLS") as [s|]; simpl JS.nullish.
    + destruct (String.eqb_spec s "true") as [->|N]; split; auto; try discriminate.
      * intros (s' & E & N). injection E as <-. contradiction.
      * intros _. exists s. auto.
    + split; [discriminate|]. intros (s & E & _). discriminate.
Qed.

Lemma loadConfig_flags_exact_witness :
  exists config,
    loaded (setEnv "INVERSE_COPY" "true" baseEnv) = Some config
    /\ inverse (risk config) = true.
Proof.
  destruct (completion (loadConfig (setEnv "INVERSE_COPY" "true" baseEnv)))
    as [config|e] eqn:E.
  - exists config. split; [unfold loaded; rewrite E; reflexivity|].
    apply (proj1 (loadConfig_flags_exact _ config E)). reflexivity.
  - vm_compute in E. discriminate.
Defined.

(** A numeric field whose variable is set is the numeric value of the
    variable. *)
Lemma numericFields_set (env : ProcessEnv) (config : CopyTradingConfig)
      (name : string) (field : CopyTradingConfig -> JS.number) (s : string) :
  completion (loadConfig env) = Normal config ->
  In (name, field) numericFields ->
  env name = Some s ->
  field config = JS.Number s.
Proof.
  intros H I E.
  destruct (loadConfig_fields env config H) as (_ & _ & _ & _ & _ & _ & S & R & F & _).
  pose proof (loadConfig_risk env config H) as K.
  simpl in I.
  repeat (destruct I as [I|I];
          [injection I as <- <-; rewrite ?K, ?S, ?R, ?F; cbn [minPositionUsd copyRatio maxLeverage maxNotionalUsd maxSlippageBps];
           rewrite E; reflexivity|]).
  contradiction.
Qed.

Lemma Number_blank (s : string) :
  allWhiteSpace s = true -> JS.Number s = JS.zero false.
Proof.
  intros W. unfold JS.Number, JS.trim.
  assert (T : JS.trimStart s = EmptyString).
  { induction s as [|c r IH]; [reflexivity|]. simpl in W |- *.
    apply andb_prop in W. destruct W as [C R]. rewrite C. exact (IH R). }
  rewrite T. reflexivity.
Qed.

(** X6. A numeric variable that is set but blank (empty or white space
    only) does not fall back on its default: the field is 0. *)
Theorem blank_numeric_variable_is_zero
        (env : ProcessEnv) (config : CopyTradingConfig)
        (name : string) (field : CopyTradingConfig -> JS.number) (s : string) :
  completion (loadConfig env) = Normal config ->
  In (name, field) numericFields ->
  env name = Some s ->
  allWhiteSpace s = true ->
  field config = JS.zero false.
Proof.
  intros H I E W.
  rewrite (numericFields_set env config name field s H I E).
  apply Number_blank, W.
Qed.

Lemma blank_numeric_variable_witness :
  exists config,
    loaded (setEnv "MAX_LEVERAGE" " " baseEnv) = Some config
    /\ maxLeverage (risk config) = JS.zero false.
Proof.
  destruct (completion (loadConfig (setEnv "MAX_LEVERAGE" " " baseEnv)))
    as [config|e] eqn:E.
  - exists config. split; [unfold loaded; rewrite E; reflexivity|].
    apply (blank_numeric_variable_is_zero
             (setEnv "MAX_LEVERAGE" " " baseEnv) config
             "MAX_LEVERAGE" (fun c => maxLeverage (risk c)) " " E).
    + simpl. tauto.
    + reflexivity.
    + reflexivity.
  - vm_compute in E. discriminate.
Defined.

Lemma ofDecimal_integer (m : Z) :
  0 <= m -> JS.ofDecimal false m 0 = JS.ofZ m.
Proof.
  intros P. destruct m as [|p|p]; [reflexivity| |lia].
  unfold JS.ofDecimal, JS.roundDecimal, JS.ofZ.
  change (Z.to_pos (10 ^ 0)) with 1%positive. rewrite Pos.mul_1_r. reflexivity.
Qed.

Lemma Number_digits_value (s : string) :
  allDigits s = true -> s <> EmptyString ->
  JS.Number s = JS.ofZ (decimalValue s).
Proof.
  intros H N. unfold decimalValue.
  rewrite <- ofDecimal_integer
    by (apply digitsValue_nonneg; [lia|apply readDigits_nonneg]).
  unfold JS.Number. rewrite (trim_digits s H).
  destruct s as [|c r]; [contradiction|].
  pose proof (allDigits_head c r H) as [[d D] _].
  pose proof (digit_code c d D) as R.
  destruct (Z.eqb_spec (JS.code c) 43); [lia|].
  destruct (Z.eqb_spec (JS.code c) 45); [lia|].
  rewrite (radixPrefix_digits _ H).
  unfold JS.readSignedDecimal.
  destruct (String.eqb_spec (String c r) "Infinity") as [E|_].
  { injection E as -> _. vm_compute in D. discriminate. }
  unfold JS.readUnsignedDecimal.
  destruct (readDigits_digits _ H) as (ds & E & NE).
  rewrite E. destruct ds as [|d0 ds]; [exfalso; apply NE; [discriminate|reflexivity]|].
  reflexivity.
Qed.

(** X7. A numeric variable that is a non-empty string of decimal digits
    loads as the binary64 number nearest to the integer it spells, which is
    [>= 0] and so not NaN. *)
Theorem digits_numeric_variable_is_its_integer
        (env : ProcessEnv) (config : CopyTradingConfig)
        (name : string) (field : CopyTradingConfig -> JS.number) (s : string) :
  completion (loadConfig env) = Normal config ->
  In (name, field) numericFields ->
  env name = Some s ->
  allDigits s = true -> s <> EmptyString ->
  field config = JS.ofZ (decimalValue s)
  /\ JS.ge (field config) (JS.zero false) = true.
Proof.
  intros H I E D N.
  rewrite (numericFields_set env config name field s H I E).
  split; [apply Number_digits_value; assumption|].
  apply Number_digits_nonneg; assumption.
Qed.

Lemma digits_numeric_variable_witness :
  exists config,
    loaded (setEnv "REFRESH_ACCOUNT_INTERVAL_MS" "1500" baseEnv) = Some config
    /\ refreshAccountIntervalMs config = JS.ofZ 1500.
Proof.
  destruct (completion (loadConfig (setEnv "REFRESH_ACCOUNT_INTERVAL_MS" "1500" baseEnv)))
    as [config|e] eqn:E.
  - exists config. split; [unfold loaded; rewrite E; reflexivity|].
    apply (digits_numeric_variable_is_its_integer
             (setEnv "REFRESH_ACCOUNT_INTERVAL_MS" "1500" baseEnv) config
             "REFRESH_ACCOUNT_INTERVAL_MS" refreshAccountIntervalMs "1500" E).
    + simpl. tauto.
    + reflexivity.
    + reflexivity.
    + discriminate.
  - vm_compute in E. discriminate.
Defined.

Lemma NumberOfString_negative (x : JS.number) :
  JS.lt (JS.NumberOfString x) (JS.zero false) = JS.lt x (JS.zero false).
Proof. destruct x as [s|s| |s m e]; try destruct s; reflexivity. Qed.

(** X8. No default and no unsigned text makes a numeric field negative: a
    field is below zero only when the variable it converts, trimmed,
    starts with a minus sign. *)
Theorem negative_field_needs_minus_sign
        (env : ProcessEnv) (config : CopyTradingConfig)
        (name : string) (field : CopyTradingConfig -> JS.number) :
  completion (loadConfig env) = Normal config ->
  In (name, field) numericFields ->
  JS.lt (field config) (JS.zero false) = true ->
  exists s r, readFrom env name = Some s /\ JS.trim s = String "-" r.
Proof.
  intros H I L.
  destruct (loadConfig_fields env config H) as (_ & _ & _ & _ & _ & _ & S & R & F & _).
  pose proof (loadConfig_risk env config H) as K.
  assert (G : forall v, JS.lt (JS.Number v) (JS.zero false) = true ->
                        exists s r, Some v = Some s /\ JS.trim s = String "-" r).
  { intros v Lv. destruct (Number_negative_needs_minus v Lv) as [r T].
    exists v, r. auto. }
  simpl in I.
  repeat (destruct I as [I|I];
          [injection I as <- <-; unfold readFrom; simpl;
           rewrite ?K, ?S, ?R, ?F in L;
           cbn [minPositionUsd copyRatio maxLeverage maxNotionalUsd maxSlippageBps] in L|]);
    try contradiction.
  - destruct (env "MIN_POSITION_USD"); [apply G, L|vm_compute in L; discriminate].
  - destruct (env "COPY_RATIO"); [apply G, L|vm_compute in L; discriminate].
  - destruct (env "MAX_LEVERAGE"); [apply G, L|vm_compute in L; discriminate].
  - destruct (env "MAX_NOTIONAL_USD"); [apply G, L|vm_compute in L; discriminate].
  - destruct (env "MAX_SLIPPAGE_BPS"); [apply G, L|].
    destruct (env "SLIPPAGE_BPS"); [apply G, L|vm_compute in L; discriminate].
  - destruct (env "SYNC_INTERVAL_MS"); [apply G, L|vm_compute in L; discriminate].
  - destruct (env "RECONCILIATION_INTERVAL_MS"); [apply G, L|].
    rewrite NumberOfString_negative, S in L.
    destruct (env "SYNC_INTERVAL_MS"); [apply G, L|vm_compute in L; discriminate].
  - destruct (env "REFRESH_ACCOUNT_INTERVAL_MS"); [apply G, L|vm_compute in L; discriminate].
Qed.

Lemma negative_field_witness :
  exists s r,
    readFrom negativeRatioEnv "COPY_RATIO" = Some s /\ JS.trim s = String "-" r.
Proof.
  destruct (completion (loadConfig negativeRatioEnv)) as [config|e] eqn:E.
  - apply (negative_field_needs_minus_sign
             negativeRatioEnv config "COPY_RATIO" (fun c => copyRatio (risk c)) E).
    + simpl. tauto.
    + vm_compute in E. injection E as <-. reflexivity.
  - vm_compute in E. discriminate.
Defined.

(** X9. The identifiers are taken as they are: whatever non-empty texts
    LEADER_ADDRESS and FOLLOWER_PRIVATE_KEY hold, [loadConfig] returns a
    configuration with exactly these texts (neither trimmed nor checked
    for a [0x] prefix), and with FOLLOWER_VAULT_ADDRESS as it is, be it
    unset or empty. *)
Theorem loadConfig_accepts_any_identifier
        (env : ProcessEnv) (leader key : string) :
  env "LEADER_ADDRESS" = Some leader -> leader <> EmptyString ->
  env "FOLLOWER_PRIVATE_KEY" = Some key -> key <> EmptyString ->
  exists config,
    completion (loadConfig env) = Normal config
    /\ leaderAddress config = leader
    /\ followerPrivateKey config = key
    /\ followerVaultAddress config = env "FOLLOWER_VAULT_ADDRESS".
Proof.
  intros L NL K NK. unfold loadConfig. rewrite L, K.
  destruct leader as [|c s]; [contradiction|].
  destruct key as [|c' s']; [contradiction|].
  cbn [completion]. eexists. split; [reflexivity|].
  repeat split.
Qed.

Lemma loadConfig_accepts_any_identifier_witness :
  exists config,
    completion (loadConfig
                  (setEnv "LEADER_ADDRESS" " leader "
                     (setEnv "FOLLOWER_PRIVATE_KEY" "secret"
                        (setEnv "FOLLOWER_VAULT_ADDRESS" "" emptyEnv))))
    = Normal config
    /\ leaderAddress config = " leader "
    /\ followerPrivateKey config = "secret"
    /\ followerVaultAddress config = Some "".
Proof.
  apply (loadConfig_accepts_any_identifier
           (setEnv "LEADER_ADDRESS" " leader "
              (setEnv "FOLLOWER_PRIVATE_KEY" "secret"
                 (setEnv "FOLLOWER_VAULT_ADDRESS" "" emptyEnv)))
           " leader " "secret");
    try reflexivity; discriminate.
Defined.

(* ===================================================================== *)
(** ** Further properties of [normalizeEnvironment] *)
(* ===================================================================== *)

Lemma lowerChar_whiteSpace (c : ascii) :
  JS.isWhiteSpace (JS.lowerChar c) = JS.isWhiteSpace c.
Proof. destruct c as [[] [] [] [] [] [] [] []]; reflexivity. Qed.

Lemma lowerChar_idempotent (c : ascii) :
  JS.lowerChar (JS.lowerChar c) = JS.lowerChar c.
Proof. destruct c as [[] [] [] [] [] [] [] []]; reflexivity. Qed.

Lemma toLowerCase_app (a b : string) :
  JS.toLowerCase (a ++ b) = (JS.toLowerCase a ++ JS.toLowerCase b)%string.
Proof. induction a as [|c a IH]; simpl; [reflexivity|]. rewrite IH. reflexivity. Qed.

Lemma toLowerCase_idempotent (s : string) :
  JS.toLowerCase (JS.toLowerCase s) = JS.toLowerCase s.
Proof.
  induction s as [|c s IH]; simpl; [reflexivity|].
  rewrite lowerChar_idempotent, IH. reflexivity.
Qed.

Lemma toLowerCase_whiteSpace (s : string) :
  allWhiteSpace (JS.toLowerCase s) = allWhiteSpace s.
Proof.
  induction s as [|c s IH]; simpl; [reflexivity|].
  rewrite lowerChar_whiteSpace, IH. reflexivity.
Qed.

Lemma trimStart_padding (pad t : string) :
  allWhiteSpace pad = true ->
  JS.trimStart (pad ++ t) = JS.trimStart t.
Proof.
  induction pad as [|c pad IH]; simpl; [reflexivity|].
  intros W. apply andb_prop in W. destruct W as [C W]. rewrite C. exact (IH W).
Qed.

Lemma trimEnd_blank (pad : string) :
  allWhiteSpace pad = true -> JS.trimEnd pad = EmptyString.
Proof.
  induction pad as [|c pad IH]; simpl; [reflexivity|].
  intros W. apply andb_prop in W. destruct W as [C W].
  rewrite (IH W), C. reflexivity.
Qed.

Lemma trimEnd_padding (t pad : string) :
  allWhiteSpace pad = true ->
  JS.trimEnd (t ++ pad) = JS.trimEnd t.
Proof.
  intros W. induction t as [|c t IH]; simpl.
  - apply trimEnd_blank, W.
  - rewrite IH. reflexivity.
Qed.

Lemma trimStart_blank (pad : string) :
  allWhiteSpace pad = true -> JS.trimStart pad = EmptyString.
Proof.
  induction pad as [|c pad IH]; simpl; [reflexivity|].
  intros W. apply andb_prop in W. destruct W as [C W]. rewrite C. exact (IH W).
Qed.

Lemma trimStart_app (t pad : string) :
  allWhiteSpace pad = true ->
  JS.trimStart (t ++ pad) = EmptyString /\ JS.trimStart t = EmptyString
  \/ JS.trimStart (t ++ pad) = (JS.trimStart t ++ pad)%string.
Proof.
  intros W. induction t as [|c t IH]; simpl.
  - left. split; [apply trimStart_blank, W|reflexivity].
  - destruct (JS.isWhiteSpace c); [exact IH|]. right. reflexivity.
Qed.

(** Padding with white space does not change what [trim] returns. *)
Lemma trim_padding (pad1 t pad2 : string) :
  allWhiteSpace pad1 = true -> allWhiteSpace pad2 = true ->
  JS.trim (pad1 ++ t ++ pad2) = JS.trim t.
Proof.
  intros W1 W2. unfold JS.trim.
  rewrite (trimStart_padding pad1 _ W1).
  destruct (trimStart_app t pad2 W2) as [[E1 E2]|E].
  - rewrite E1, E2. reflexivity.
  - rewrite E. apply trimEnd_padding, W2.
Qed.

Lemma isBlank_allWhiteSpace (s : string) : isBlank s = allWhiteSpace s.
Proof.
  unfold isBlank. induction s as [|c s IH]; [reflexivity|].
  cbn [list_ascii_of_string forallb allWhiteSpace]. rewrite IH. f_equal.
  destruct c as [[] [] [] [] [] [] [] []]; reflexivity.
Qed.

(** What [trim] removes is white space on either side. *)
Lemma trimStart_split (t : string) :
  exists pad, t = (pad ++ JS.trimStart t)%string /\ allWhiteSpace pad = true.
Proof.
  induction t as [|c t IH]; simpl.
  - exists EmptyString. auto.
  - destruct (JS.isWhiteSpace c) eqn:C.
    + destruct IH as (pad & E & W). exists (String c pad). simpl.
      rewrite C, W, <- E. auto.
    + exists EmptyString. auto.
Qed.

Lemma trimEnd_split (t : string) :
  exists pad, t = (JS.trimEnd t ++ pad)%string /\ allWhiteSpace pad = true.
Proof.
  induction t as [|c t IH].
  - exists EmptyString. auto.
  - destruct IH as (pad & E & W). cbn [JS.trimEnd].
    destruct (JS.trimEnd t) as [|d r] eqn:T.
    + simpl in E. subst pad. destruct (JS.isWhiteSpace c) eqn:C.
      * exists (String c t). simpl. rewrite C, W. auto.
      * exists t. auto.
    + exists pad. simpl. simpl in E. rewrite <- E. auto.
Qed.

Lemma trim_split (t : string) :
  exists pad1 pad2,
    t = (pad1 ++ JS.trim t ++ pad2)%string
    /\ allWhiteSpace pad1 = true /\ allWhiteSpace pad2 = true.
Proof.
  destruct (trimStart_split t) as (pad1 & E1 & W1).
  destruct (trimEnd_split (JS.trimStart t)) as (pad2 & E2 & W2).
  exists pad1, pad2. unfold JS.trim. rewrite <- E2, <- E1. auto.
Qed.

Lemma toLowerCase_app_inv (a b : string) :
  forall s, JS.toLowerCase s = (a ++ b)%string ->
            exists s1 s2, s = (s1 ++ s2)%string
                          /\ JS.toLowerCase s1 = a /\ JS.toLowerCase s2 = b.
Proof.
  induction a as [|c a IH]; intros s E; simpl in E.
  - exists EmptyString, s. auto.
  - destruct s as [|d s]; [discriminate|]. simpl in E. injection E as C E.
    destruct (IH s E) as (s1 & s2 & -> & L1 & L2).
    exists (String d s1), s2. simpl. rewrite C, L1. auto.
Qed.

(** The letters of "testnet" come from themselves and their capitals only. *)
Lemma lowerChar_letter (c : ascii) :
  (JS.lowerChar c = "t"%char <-> (Ascii.eqb c "t" || Ascii.eqb c "T") = true)
  /\ (JS.lowerChar c = "e"%char <-> (Ascii.eqb c "e" || Ascii.eqb c "E") = true)
  /\ (JS.lowerChar c = "s"%char <-> (Ascii.eqb c "s" || Ascii.eqb c "S") = true)
  /\ (JS.lowerChar c = "n"%char <-> (Ascii.eqb c "n" || Ascii.eqb c "N") = true).
Proof.
  destruct c as [[] [] [] [] [] [] [] []];
    vm_compute; repeat split; intros H; first [reflexivity | discriminate].
Qed.

Lemma toLowerCase_testnet (core : string) :
  JS.toLowerCase core = "testnet" <-> spelledAs "testnet" "TESTNET" core = true.
Proof.
  destruct core as [|c1 [|c2 [|c3 [|c4 [|c5 [|c6 [|c7 [|c8 r]]]]]]]];
    try (split; [discriminate|simpl; intros H; repeat rewrite ?andb_false_r in H;
                 try discriminate;
                 repeat (apply andb_prop in H; destruct H as [_ H]); discriminate]).
  simpl.
  pose proof (lowerChar_letter c1) as (T1 & _).
  pose proof (lowerChar_letter c2) as (_ & E2 & _).
  pose proof (lowerChar_letter c3) as (_ & _ & S3 & _).
  pose proof (lowerChar_letter c4) as (T4 & _).
  pose proof (lowerChar_letter c5) as (_ & _ & _ & N5).
  pose proof (lowerChar_letter c6) as (_ & E6 & _).
  pose proof (lowerChar_letter c7) as (T7 & _).
  split.
  - intros H. injection H as H1 H2 H3 H4 H5 H6 H7.
    rewrite (proj1 T1 H1), (proj1 E2 H2), (proj1 S3 H3), (proj1 T4 H4),
      (proj1 N5 H5), (proj1 E6 H6), (proj1 T7 H7). reflexivity.
  - intros H.
    repeat (apply andb_prop in H; let X := fresh "X" in destruct H as [X H]).
    rewrite (proj2 T1 X), (proj2 E2 X0), (proj2 S3 X1), (proj2 T4 X2),
      (proj2 N5 X3), (proj2 E6 X4), (proj2 T7 X5). reflexivity.
Qed.

(** C9. [normalizeEnvironment] is a total function into the two
    environments (it has no failing completion): it answers ["testnet"]
    exactly when its argument is defined and, lower-cased and trimmed,
    equals ["testnet"], that is, exactly when the argument is the word
    "testnet" in any mix of cases between two runs of white space; for
    every other argument, among them [undefined], the empty string and
    unrecognised values, it answers ["main"]. *)
Theorem normalizeEnvironment_spec (raw : option string) :
  (normalizeEnvironment raw = env_testnet <->
     exists s, raw = Some s /\ JS.trim (JS.toLowerCase s) = "testnet")
  /\ (normalizeEnvironment raw = env_main <->
       ~ exists s, raw = Some s /\ JS.trim (JS.toLowerCase s) = "testnet")
  /\ normalizeEnvironment None = env_main
  /\ normalizeEnvironment (Some "") = env_main
  /\ (normalizeEnvironment raw = env_testnet <->
       exists pad1 core pad2,
         raw = Some (pad1 ++ core ++ pad2)%string
         /\ isBlank pad1 = true /\ isBlank pad2 = true
         /\ spelledAs "testnet" "TESTNET" core = true).
Proof.
  assert (T : normalizeEnvironment raw = env_testnet <->
              exists s, raw = Some s /\ JS.trim (JS.toLowerCase s) = "testnet").
  { unfold normalizeEnvironment.
    destruct raw as [[|c s]|].
    - split; [discriminate|]. intros (s & E & H).
      injection E as <-. vm_compute in H. discriminate.
    - destruct (String.eqb_spec (JS.trim (JS.toLowerCase (String c s))) "testnet") as [E|E].
      + split; [|reflexivity]. intros _. exists (String c s). auto.
      + split; [discriminate|]. intros (s' & E' & H).
        injection E' as <-. contradiction.
    - split; [discriminate|]. intros (s & E & _). discriminate. }
  split; [exact T|]. split; [|split; [reflexivity|split; [reflexivity|]]].
  - split.
    + intros M H. apply T in H. rewrite H in M. discriminate.
    + intros N. destruct (normalizeEnvironment raw) eqn:E; [reflexivity|].
      exfalso. apply N, T. reflexivity.
  - rewrite T. split.
    + intros (s & -> & H).
      destruct (trim_split (JS.toLowerCase s)) as (p1 & p2 & E & W1 & W2).
      rewrite H in E.
      destruct (toLowerCase_app_inv _ _ _ E) as (s1 & s23 & -> & L1 & L23).
      destruct (toLowerCase_app_inv _ _ _ L23) as (s2 & s3 & -> & L2 & L3).
      exists s1, s2, s3. split; [reflexivity|].
      rewrite !isBlank_allWhiteSpace.
      rewrite <- (toLowerCase_whiteSpace s1), <- (toLowerCase_whiteSpace s3), L1, L3.
      split; [exact W1|]. split; [exact W2|].
      apply toLowerCase_testnet, L2.
    + intros (pad1 & core & pad2 & -> & W1 & W2 & S).
      rewrite isBlank_allWhiteSpace in W1, W2.
      eexists. split; [reflexivity|].
      rewrite !toLowerCase_app.
      rewrite trim_padding by (rewrite toLowerCase_whiteSpace; assumption).
      rewrite (proj2 (toLowerCase_testnet core) S). reflexivity.
Qed.

(** Capitals and white space on both sides: testnet; a letter missing or
    white space inside the word: mainnet. *)
Example normalizeEnvironment_words :
  normalizeEnvironment (Some "TESTNET") = env_testnet
  /\ normalizeEnvironment (Some " tEsTnEt  ") = env_testnet
  /\ normalizeEnvironment (Some "testne") = env_main
  /\ normalizeEnvironment (Some "test net") = env_main
  /\ normalizeEnvironment (Some "testnet1") = env_main.
Proof. repeat split. Qed.

(** X10. [normalizeEnvironment] looks at its argument up to case and
    surrounding white space only: padding the text with white space on
    either side, or lower-casing it, does not change the answer. *)
Theorem normalizeEnvironment_padding_and_case (pad1 s pad2 : string) :
  allWhiteSpace pad1 = true -> allWhiteSpace pad2 = true ->
  normalizeEnvironment (Some (pad1 ++ s ++ pad2)%string)
  = normalizeEnvironment (Some s)
  /\ normalizeEnvironment (Some (JS.toLowerCase s)) = normalizeEnvironment (Some s).
Proof.
  intros W1 W2.
  assert (V : forall t, normalizeEnvironment (Some t)
                        = if String.eqb (JS.trim (JS.toLowerCase t)) "testnet"
                          then env_testnet else env_main).
  { intros [|c t]; reflexivity. }
  split.
  - rewrite !V, !toLowerCase_app.
    rewrite trim_padding by (rewrite toLowerCase_whiteSpace; assumption).
    reflexivity.
  - rewrite !V, toLowerCase_idempotent. reflexivity.
Qed.

Lemma normalizeEnvironment_padding_witness :
  normalizeEnvironment (Some ("  " ++ "TestNet" ++ " ")%string)
  = normalizeEnvironment (Some "TestNet")
  /\ normalizeEnvironment (Some (JS.toLowerCase "TestNet"))
     = normalizeEnvironment (Some "TestNet").
Proof.
  apply (normalizeEnvironment_padding_and_case "  " "TestNet" " "); reflexivity.
Defined.

(* ===================================================================== *)
(** ** Further properties of [main], [pollLoop] and [shutdown] *)
(* ===================================================================== *)

Lemma precededBy_split {A} (p q : A -> bool) (l : list A) :
  forall seen pre o post,
    precededBy p q seen l = true -> l = pre ++ o :: post -> p o = true ->
    seen = true \/ existsb q pre = true.
Proof.
  induction l as [|x l IH]; intros seen pre o post P E O.
  - destruct pre; discriminate.
  - simpl in P. apply andb_prop in P. destruct P as [P1 P2].
    destruct pre as [|y pre]; simpl in E; injection E as -> E.
    + rewrite O in P1. simpl in P1. left. exact P1.
    + destruct (IH _ pre o post P2 E O) as [S|S].
      * apply orb_prop in S. destruct S as [S|S]; [left; exact S|].
        right. simpl. rewrite S. reflexivity.
      * right. simpl. rewrite S. apply orb_true_r.
Qed.

(** What a run of [main] has observed up to some point, the complete run
    has observed too. *)
Lemma main_trace_split (env : ProcessEnv) (rs : list Outcome) (fuel : nat)
      (pre post : list Observation) (o : Observation) :
  trace (fst (exec fuel (main env) (start rs))) = pre ++ o :: post ->
  exists post', trace (fst (main_run env rs)) = pre ++ o :: post'.
Proof.
  intros E. destruct (Nat.le_gt_cases 24 fuel) as [L|L].
  - rewrite (main_runs_longer env rs fuel L) in E. exists post. exact E.
  - destruct (exec_prefix fuel 24 (main env) (start rs)) as [more M]; [lia|].
    rewrite main_runs, E, <- app_assoc in M. exists (post ++ more). exact M.
Qed.

Lemma isSubscribed_inv (o : Observation) :
  isSubscribed o = true -> o = Settled subscriptions_start Resolved.
Proof.
  destruct o as [op|op [|e]|op|ms|code]; try discriminate;
    destruct op; try discriminate; reflexivity.
Qed.

(** X11. [main] subscribes before it reconciles: in every run the call of
    [reconciler.reconcileOnce()] comes after [subscriptions.start()] has
    resolved; when [subscriptions.start()] rejects, [main] logs the error
    and exits with code 1 without reconciling. *)
Theorem main_subscribes_before_reconciling (env : ProcessEnv) (rs : list Outcome) :
  (forall fuel pre o post,
      trace (fst (exec fuel (main env) (start rs))) = pre ++ o :: post ->
      isReconcileOnce o = true ->
      In (Settled subscriptions_start Resolved) pre)
  /\ (forall config error rest,
         completion (loadConfig env) = Normal config ->
         rs = Rejected error :: rest ->
         forall fuel, (24 <= fuel)%nat ->
           exec fuel (main env) (start rs)
           = ({| pending := rest;
                 trace := boot config
                            ++ Settled subscriptions_start (Rejected error)
                            :: fatal error |},
              Exited 1)).
Proof.
  split.
  - intros fuel pre o post E O.
    destruct (main_trace_split env rs fuel pre post o E) as [post' M].
    assert (P : precededBy isReconcileOnce isSubscribed false
                  (trace (fst (main_run env rs))) = true).
    { unfold main_run.
      destruct (completion (loadConfig env)) as [config|error];
        [destruct rs as [|[|error] [|[|error'] rest]]|]; reflexivity. }
    destruct (precededBy_split _ _ _ _ pre o post' P M O) as [S|S];
      [discriminate|].
    apply existsb_exists in S. destruct S as (x & I & S).
    apply isSubscribed_inv in S. subst x. exact I.
  - intros config error rest C -> fuel L.
    rewrite (main_runs_longer env _ fuel L). unfold main_run. rewrite C. reflexivity.
Qed.

Lemma main_subscribes_witness :
  exists config,
    loaded baseEnv = Some config
    /\ exec 24 (main baseEnv) (start [Rejected (Error "no socket")])
       = ({| pending := [];
             trace := boot config
                        ++ Settled subscriptions_start (Rejected (Error "no socket"))
                        :: fatal (Error "no socket") |},
          Exited 1).
Proof.
  destruct (completion (loadConfig baseEnv)) as [config|e] eqn:E.
  - exists config. split; [unfold loaded; rewrite E; reflexivity|].
    exact (proj2 (main_subscribes_before_reconciling
                    baseEnv [Rejected (Error "no socket")])
                 config (Error "no socket") [] E eq_refl 24%nat (le_n 24)).
  - vm_compute in E. discriminate.
Defined.

(** X12. [main] never exits with another code than 1, and a run that exits
    has logged the fatal error last and has started nothing: neither the
    timer of the reconciler nor the poll loop nor a signal handler. *)
Theorem main_exit_is_fatal
        (env : ProcessEnv) (rs : list Outcome) (fuel : nat) (w' : World) (code : Z) :
  exec fuel (main env) (start rs) = (w', Exited code) ->
  code = 1
  /\ (exists error before, trace w' = before ++ fatal error)
  /\ existsb isStarted (trace w') = false.
Proof.
  intros E.
  apply (exec_mono fuel _ _ _ _ (Nat.max fuel 24)) in E; [|discriminate|lia].
  rewrite main_runs_longer in E by lia.
  unfold main_run in E.
  destruct (completion (loadConfig env)) as [config|error].
  - destruct rs as [|[|error] rest]; [discriminate| |].
    + destruct rest as [|[|error'] rest]; try discriminate.
      injection E as <- <-. split; [reflexivity|]. split; [|reflexivity].
      exists error'.
      exists (boot config ++ [Settled subscriptions_start Resolved;
                              Settled reconciler_reconcileOnce (Rejected error')]).
      rewrite <- app_assoc. reflexivity.
    + injection E as <- <-. split; [reflexivity|]. split; [|reflexivity].
      exists error.
      exists (boot config ++ [Settled subscriptions_start (Rejected error)]).
      rewrite <- app_assoc. reflexivity.
  - injection E as <- <-. split; [reflexivity|]. split; [|reflexivity].
    exists error, [Called dotenv_config]. reflexivity.
Qed.

Lemma main_exit_is_fatal_witness :
  existsb isStarted
    (trace (fst (exec 24 (main (unsetEnv "FOLLOWER_PRIVATE_KEY" baseEnv)) (start []))))
  = false.
Proof.
  destruct (exec 24 (main (unsetEnv "FOLLOWER_PRIVATE_KEY" baseEnv)) (start []))
    as [w' st] eqn:E.
  assert (S : st = Exited 1) by (vm_compute in E; injection E as _ <-; reflexivity).
  subst st.
  exact (proj2 (proj2 (main_exit_is_fatal _ _ _ _ _ E))).
Defined.

(** X13. [main] returns exactly when the configuration loads and both
    [subscriptions.start()] and [reconciler.reconcileOnce()] resolve; it
    has then started the timer of the reconciler, then the poll loop, then
    registered the handlers of SIGINT and SIGTERM, each once and in this
    order. *)
Theorem main_returns_iff_startup_succeeds (env : ProcessEnv) (rs : list Outcome) :
  ((exists fuel w', exec fuel (main env) (start rs) = (w', Returned tt)) <->
     (exists config rest,
         completion (loadConfig env) = Normal config
         /\ rs = Resolved :: Resolved :: rest))
  /\ (forall fuel w',
         exec fuel (main env) (start rs) = (w', Returned tt) ->
         filter isStarted (trace w')
         = [ Called reconciler_start;
             Called void_pollLoop;
             Called (process_on "SIGINT");
             Called (process_on "SIGTERM") ]).
Proof.
  assert (R : forall fuel w',
             exec fuel (main env) (start rs) = (w', Returned tt) ->
             exists config rest,
               completion (loadConfig env) = Normal config
               /\ rs = Resolved :: Resolved :: rest
               /\ trace w' = boot config
                               ++ Settled subscriptions_start Resolved
                               :: Settled reconciler_reconcileOnce Resolved
                               :: started).
  { intros fuel w' E.
    apply (exec_mono fuel _ _ _ _ (Nat.max fuel 24)) in E; [|discriminate|lia].
    rewrite main_runs_longer in E by lia.
    unfold main_run in E.
    destruct (completion (loadConfig env)) as [config|error];
      [destruct rs as [|[|error] [|[|error'] rest]]|]; try discriminate.
    injection E as <-. exists config, rest. auto. }
  split; [split|].
  - intros (fuel & w' & E). destruct (R fuel w' E) as (config & rest & C & S & _).
    exists config, rest. auto.
  - intros (config & rest & C & ->). exists 24%nat. eexists.
    rewrite main_runs. unfold main_run. rewrite C. reflexivity.
  - intros fuel w' E. destruct (R fuel w' E) as (config & rest & _ & _ & ->).
    reflexivity.
Qed.

Lemma iteration_sleeps (config : CopyTradingConfig) (rs : list Outcome) :
  filter isSlept (flat_map (iteration config) rs)
  = repeat (Slept (refreshAccountIntervalMs config)) (List.length rs).
Proof.
  induction rs as [|[|error] rs IH]; simpl; [reflexivity| |];
    rewrite IH; reflexivity.
Qed.

Lemma iteration_errors (config : CopyTradingConfig) (rs : list Outcome) :
  List.length (filter isErrorLog (flat_map (iteration config) rs))
  = List.length (filter isRejected rs).
Proof.
  induction rs as [|[|error] rs IH]; simpl; [reflexivity|exact IH|].
  rewrite IH. reflexivity.
Qed.

Lemma iteration_loop_calls (config : CopyTradingConfig) (rs : list Outcome) :
  forallb isLoopCall (flat_map (iteration config) rs) = true.
Proof.
  induction rs as [|[|error] rs IH]; simpl; [reflexivity|exact IH|exact IH].
Qed.

(** X14. The loop calls [delay] once in every iteration, after a failed
    call as after a successful one, each time with
    [config.refreshAccountIntervalMs] as its argument; it logs one error
    for each rejected call and none otherwise; and after [n] settled calls
    it has called [syncWithLeader] [n + 1] times.  How long a call of
    [delay] takes is not part of the model, and nothing is said of it. *)
Theorem pollLoop_sleeps_every_iteration
        (config : CopyTradingConfig) (rs : list Outcome) (tr : list Observation) :
  exists fuel added,
    exec fuel (pollLoop config) {| pending := rs; trace := tr |}
    = ({| pending := []; trace := tr ++ added |}, Blocked)
    /\ filter isSlept added
       = repeat (Slept (refreshAccountIntervalMs config)) (List.length rs)
    /\ List.length (filter isErrorLog added) = List.length (filter isRejected rs)
    /\ List.length (filter isSyncWithLeader added) = S (List.length rs).
Proof.
  destruct (pollLoop_runs config rs tr) as [fuel E].
  exists fuel, (flat_map (iteration config) rs ++ [Waiting tradeExecutor_syncWithLeader]).
  split; [exact E|].
  rewrite !filter_app, !length_app. simpl.
  rewrite app_nil_r, iteration_sleeps, iteration_errors.
  repeat split; [lia|].
  assert (C : List.length (filter isSyncWithLeader (flat_map (iteration config) rs))
              = List.length rs).
  { clear. induction rs as [|[|error] rs IH]; simpl; [reflexivity| |];
      rewrite IH; reflexivity. }
  rewrite C. lia.
Qed.

(** X15. Whatever its length, a run of the loop adds to the trace nothing
    but calls of [syncWithLeader], the error line "Periodic sync failed"
    and sleeps: the loop never calls the reconciler, the subscriptions or
    [process.exit]. *)
Theorem pollLoop_calls_nothing_else
        (config : CopyTradingConfig) (fuel : nat)
        (rs : list Outcome) (tr : list Observation) :
  exists added,
    trace (fst (exec fuel (pollLoop config) {| pending := rs; trace := tr |}))
    = tr ++ added
    /\ forallb isLoopCall added = true.
Proof.
  destruct (exec_extends fuel (pollLoop config) {| pending := rs; trace := tr |})
    as [added A].
  simpl in A. exists added. split; [exact A|].
  destruct (pollLoop_runs config rs tr) as [full E].
  assert (P : exists more,
             tr ++ flat_map (iteration config) rs
                ++ [Waiting tradeExecutor_syncWithLeader]
             = (tr ++ added) ++ more).
  { destruct (Nat.le_gt_cases fuel full) as [L|L].
    - destruct (exec_prefix fuel full (pollLoop config)
                  {| pending := rs; trace := tr |} L) as [more M].
      rewrite E, A in M. simpl in M. exists more. exact M.
    - apply (exec_mono full _ _ _ _ fuel) in E; [|discriminate|lia].
      rewrite E in A. simpl in A. exists []. rewrite app_nil_r. exact A. }
  destruct P as [more P]. rewrite <- app_assoc in P. apply app_inv_head in P.
  assert (F : forallb isLoopCall (added ++ more) = true).
  { rewrite <- P, forallb_app, iteration_loop_calls. reflexivity. }
  rewrite forallb_app in F. apply andb_prop in F. apply F.
Qed.

(* ===================================================================== *)
(** ** Further properties of the override of [syncWithLeader] *)
(* ===================================================================== *)

(** X16. However many times the override is called, and with whatever
    receivers and arguments, LeaderState, FollowerState and the orders stay
    as they were, and the log has grown by copies of the one line, at most
    one for each call. *)
Theorem syncCalls_only_log
        (calls : list (Receiver * list JS.value)) (s : Store) :
  leaderState (syncCalls calls s) = leaderState s
  /\ followerState (syncCalls calls s) = followerState s
  /\ orders (syncCalls calls s) = orders s
  /\ exists n, (n <= List.length calls)%nat
               /\ log (syncCalls calls s) = log s ++ repeat disabledEntry n.
Proof.
  unfold syncCalls. revert s.
  induction calls as [|[this args] calls IH]; intros s; simpl.
  - repeat split. exists 0%nat. split; [lia|]. symmetry. apply app_nil_r.
  - destruct (IH (fst (syncWithLeader this args s))) as (L & F & O & n & B & G).
    rewrite syncWithLeader_fst in L, F, O, G.
    destruct (syncWithLeader_try_frame this s) as (L0 & F0 & O0 & G0).
    rewrite syncWithLeader_fst.
    rewrite L, F, O, G, L0, F0, O0. repeat split.
    destruct G0 as [G0|G0]; rewrite G0.
    + exists n. split; [lia|reflexivity].
    + exists (S n). split; [lia|]. rewrite <- app_assoc. reflexivity.
Qed.

Example syncCalls_three_calls :
  syncCalls [ (this_undefined, []);
              (newTradeExecutor
                 {| environment := env_main; leaderAddress := "0xabc";
                    followerPrivateKey := "0xdef"; followerVaultAddress := None;
                    syncIntervalMs := JS.ofZ 60000;
                    reconciliationIntervalMs := JS.ofZ 60000;
                    refreshAccountIntervalMs := JS.ofZ 300000;
                    websocketAggregateFills := true;
                    risk := {| minPositionUsd := JS.ofZ 40; copyRatio := JS.ofZ 1;
                               maxLeverage := JS.ofZ 25;
                               maxNotionalUsd := JS.ofZ 1000000;
                               inverse := false; maxSlippageBps := JS.ofZ 50 |} |}
                 writingLogger, [JS.ofString "BTC"]);
              (this_object {| executorRisk :=
                                {| minPositionUsd := JS.ofZ 40; copyRatio := JS.ofZ 1;
                                   maxLeverage := JS.ofZ 25;
                                   maxNotionalUsd := JS.ofZ 1000000;
                                   inverse := false; maxSlippageBps := JS.ofZ 50 |};
                              logger := throwingLogger |}, []) ]
            driftedStore
  = {| leaderState := leaderState driftedStore;
       followerState := [];
       orders := [];
       log := [disabledEntry] |}.
Proof. reflexivity. Qed.

(** X17. [shutdown] has no time-out: while [subscriptions.stop()] has not
    settled, no run of it, however long, stops the reconciler, closes the
    transport or exits; and once [stop()] has settled, it has stopped the
    reconciler but does not exit while the close of the transport has not
    settled. *)
Theorem shutdown_waits_without_timeout (signal : string) (fuel : nat) :
  existsb isAfterStop (trace (fst (exec fuel (shutdown signal) (start [])))) = false
  /\ (forall code, snd (exec fuel (shutdown signal) (start [])) <> Exited code)
  /\ (forall r code, snd (exec fuel (shutdown signal) (start [r])) <> Exited code)
  /\ (forall r, (8 <= fuel)%nat ->
                exec fuel (shutdown signal) (start [r])
                = ({| pending := [];
                      trace :=
                        [ Called (logger_warn ("Received " ++ signal ++ ", shutting down")%string);
                          Settled subscriptions_stop r ]
                        ++ stopLog r
                        ++ [ Called reconciler_stop; Waiting wsTransport_close ] |},
                   Blocked)).
Proof.
  assert (N : forall rs w' code,
             exec fuel (shutdown signal) (start rs) = (w', Exited code) ->
             exists r1 r2 rest, rs = r1 :: r2 :: rest).
  { intros rs w' code E.
    apply (exec_mono fuel _ _ _ _ (Nat.max fuel 8)) in E; [|discriminate|lia].
    rewrite shutdown_runs in E by lia. unfold shutdown_run in E.
    destruct rs as [|r1 [|r2 rest]]; try discriminate. eauto. }
  split; [|split; [|split]].
  - destruct (Nat.le_gt_cases 8 fuel) as [L|L].
    + rewrite (shutdown_runs signal [] fuel L). reflexivity.
    + do 8 (destruct fuel as [|fuel]; [reflexivity|]). lia.
  - intros code H.
    destruct (exec fuel (shutdown signal) (start [])) as [w' st] eqn:E.
    simpl in H. subst st. destruct (N _ _ _ E) as (r1 & r2 & rest & D). discriminate.
  - intros r code H.
    destruct (exec fuel (shutdown signal) (start [r])) as [w' st] eqn:E.
    simpl in H. subst st. destruct (N _ _ _ E) as (r1 & r2 & rest & D). discriminate.
  - intros r L. rewrite (shutdown_runs signal [r] fuel L). reflexivity.
Qed.
